(** * Alligator strategy back-test: signal generation and position state machine

    A shallow embedding of [alligator_strategy.py]: [generate_signals]
    (the vectorised nine-condition signal), [record_trade] (ledger row plus
    log line), [backtest_strategy] (the bar-by-bar loop followed by the
    forced closure, also with the column look-ups that fail on a frame
    lacking a column), and the part of [download_data] and [main] that
    decides whether a back-test is run at all; with the properties of the
    simulation proved about them.

    Numbers.  Every price, indicator and amount in the program is a numpy
    [float64].  They are modelled by [num]: a finite value is an exact
    rational, and the three special values that float division by zero and
    the arithmetic on its results produce ([inf], [-inf], [nan]) are kept,
    with the IEEE rules for them.  Rounding, overflow and the sign of zero
    are not modelled.

    Effects.  The rows inserted into the [trades] table and the records
    handed to the logger are collected in a [World]; the data download and
    the indicator library are parameters of the driver. *)

From Stdlib Require Import QArith Qabs Lqa Lia List ZArith String Bool.
Import ListNotations.

(* ================================================================== *)
(** * Floating-point scalars *)
(* ================================================================== *)

Module Num.

Inductive num : Type :=
| Fin (q : Q)      (* a finite value *)
| PInf             (* inf *)
| NInf             (* -inf *)
| NaN.             (* nan *)

#[global] Arguments Fin q%_Q.

Definition zero : num := Fin 0.

(** Sign of a finite value, as used by the rules for infinities. *)
Definition Qpos_b (q : Q) : bool := negb (Qle_bool q 0).
Definition Qneg_b (q : Q) : bool := negb (Qle_bool 0 q).

Definition neg (x : num) : num :=
  match x with
  | Fin q => Fin (- q)
  | PInf => NInf
  | NInf => PInf
  | NaN => NaN
  end.

Definition add (x y : num) : num :=
  match x, y with
  | NaN, _ | _, NaN => NaN
  | Fin a, Fin b => Fin (a + b)
  | PInf, NInf | NInf, PInf => NaN
  | PInf, _ | _, PInf => PInf
  | NInf, _ | _, NInf => NInf
  end.

Definition sub (x y : num) : num := add x (neg y).

(** [inf] scaled by a finite factor: the sign follows the factor, and
    [0 * inf] is [nan]. *)
Definition scale_inf (q : Q) (positive : bool) : num :=
  if Qeq_bool q 0 then NaN
  else if Bool.eqb (Qpos_b q) positive then PInf else NInf.

Definition mul (x y : num) : num :=
  match x, y with
  | NaN, _ | _, NaN => NaN
  | Fin a, Fin b => Fin (a * b)
  | Fin a, PInf | PInf, Fin a => scale_inf a true
  | Fin a, NInf | NInf, Fin a => scale_inf a false
  | PInf, PInf | NInf, NInf => PInf
  | PInf, NInf | NInf, PInf => NInf
  end.

(** True division of float64 scalars: a zero divisor raises nothing, the
    quotient is [inf], [-inf] or [nan]. *)
Definition div (x y : num) : num :=
  match x, y with
  | NaN, _ | _, NaN => NaN
  | Fin a, Fin b =>
      if Qeq_bool b 0 then
        if Qeq_bool a 0 then NaN else if Qpos_b a then PInf else NInf
      else Fin (a / b)
  | Fin _, (PInf | NInf) => Fin 0
  | PInf, Fin b => if Qneg_b b then NInf else PInf
  | NInf, Fin b => if Qneg_b b then PInf else NInf
  | (PInf | NInf), (PInf | NInf) => NaN
  end.

Definition abs (x : num) : num :=
  match x with
  | Fin q => Fin (Qabs q)
  | PInf | NInf => PInf
  | NaN => NaN
  end.

(** Comparisons: every comparison with [nan] is false, except [!=]. *)
Definition eqb (x y : num) : bool :=
  match x, y with
  | Fin a, Fin b => Qeq_bool a b
  | PInf, PInf | NInf, NInf => true
  | _, _ => false
  end.

Definition neqb (x y : num) : bool := negb (eqb x y).

Definition ltb (x y : num) : bool :=
  match x, y with
  | NaN, _ | _, NaN => false
  | Fin a, Fin b => negb (Qle_bool b a)
  | NInf, (Fin _ | PInf) => true
  | Fin _, PInf => true
  | _, _ => false
  end.

Definition leb (x y : num) : bool :=
  match x, y with
  | NaN, _ | _, NaN => false
  | Fin a, Fin b => Qle_bool a b
  | NInf, _ => true
  | _, PInf => true
  | _, _ => false
  end.

Definition gtb (x y : num) : bool := ltb y x.
Definition geb (x y : num) : bool := leb y x.

(** Python's built-in two-argument [max] and [min]: the first argument is
    kept unless the second compares strictly greater (smaller). *)
Definition max (a b : num) : num := if gtb b a then b else a.
Definition min (a b : num) : num := if ltb b a then b else a.

(** Equality of values (finite values as rationals); unlike [eqb] it
    relates [nan] to itself. *)
Definition same (x y : num) : Prop :=
  match x, y with
  | Fin a, Fin b => (a == b)%Q
  | PInf, PInf | NInf, NInf | NaN, NaN => True
  | _, _ => False
  end.

Definition is_finite (x : num) : bool :=
  match x with Fin _ => true | _ => false end.

End Num.
Export Num.

Declare Scope num_scope.
Delimit Scope num_scope with num.
Bind Scope num_scope with num.
Infix "+" := Num.add : num_scope.
Infix "-" := Num.sub : num_scope.
Infix "*" := Num.mul : num_scope.
Infix "/" := Num.div : num_scope.
Notation "- x" := (Num.neg x) : num_scope.
Infix "==?" := Num.eqb (at level 70, no associativity) : num_scope.
Infix "!=?" := Num.neqb (at level 70, no associativity) : num_scope.
Infix "<?" := Num.ltb (at level 70, no associativity) : num_scope.
Infix "<=?" := Num.leb (at level 70, no associativity) : num_scope.
Infix ">?" := Num.gtb (at level 70, no associativity) : num_scope.
Infix ">=?" := Num.geb (at level 70, no associativity) : num_scope.
Infix "=~" := Num.same (at level 70, no associativity) : num_scope.

Local Open Scope num_scope.

(* ================================================================== *)
(** * Data model *)
(* ================================================================== *)

(** One row of the feature table: the columns of the data frame that
    [generate_signals] and [backtest_strategy] read, and the row's index
    label. *)
Record Bar : Type := mkBar {
  index : Z;
  Close : num;
  Jaw : num;
  Teeth : num;
  Lips : num;
  ADX : num;
  CMO : num;
  Stoch_RSI : num;
  ATR : num;
  Volume_Change : num;
  EMA_50 : num;
  MACD : num;
  MACD_signal : num;
  Signal : Z
}.

Definition DataFrame : Type := list Bar.

Inductive Direction : Type := Long | Short.
Inductive Status : Type := Open | Closed.

(** The dictionary appended to [trades]. *)
Module Trade.
Record t : Type := mk {
  timestamp : Z;
  symbol : string;
  direction : Direction;
  entry_price : num;
  exit_price : option num;
  profit : option num;
  status : Status
}.
End Trade.

(** A row of the [trades] table; [None] in [exit_price] or [profit] is the
    text 'None' that [record_trade] stores for a missing or falsy value. *)
Module Row.
Record t : Type := mk {
  timestamp : Z;
  symbol : string;
  direction : Direction;
  entry_price : num;
  exit_price : option num;
  profit : option num;
  status : Status
}.
End Row.

Inductive Level : Type := INFO | WARNING | ERROR.

Inductive Message : Type :=
| TradeExecuted (d : Direction) (entry : num) (exit profit : option num)
                (s : Status)
| StillOpen (t : Trade.t)
| ForcedExit (exit profit portfolio : num)
| Downloading (symbol : string)
| NoDataFound (symbol : string)
| Downloaded (n_rows : nat)
| MissingColumns (found : list string)
| DownloadFailed
| FinalResults (symbol : string) (n_trades : nat)
               (portfolio initial_capital : num)
| NoDataAvailable (symbol : string)
| DatabaseInitialized.

Record LogRecord : Type := mkLog { level : Level; message : Message }.

(** What the run writes outside its own variables: the ledger table and the
    logger's output, oldest first. *)
Record World : Type := mkWorld {
  db : list Row.t;
  log : list LogRecord
}.

Definition empty_world : World := {| db := []; log := [] |}.

(* ================================================================== *)
(** * Signal generation *)
(* ================================================================== *)

Definition set_Signal (v : Z) (b : Bar) : Bar :=
  {| index := index b; Close := Close b; Jaw := Jaw b; Teeth := Teeth b;
     Lips := Lips b; ADX := ADX b; CMO := CMO b; Stoch_RSI := Stoch_RSI b;
     ATR := ATR b; Volume_Change := Volume_Change b; EMA_50 := EMA_50 b;
     MACD := MACD b; MACD_signal := MACD_signal b; Signal := v |}.

(** [data['Signal'] = v] *)
Definition assign_Signal (v : Z) (data : DataFrame) : DataFrame :=
  map (set_Signal v) data.

(** [data.loc[mask, 'Signal'] = v] *)
Definition loc_assign_Signal (mask : list bool) (v : Z) (data : DataFrame)
  : DataFrame :=
  map (fun mb : bool * Bar => if fst mb then set_Signal v (snd mb) else snd mb)
      (combine mask data).

(** One element of the boolean series [long_condition]. *)
Definition long_condition (b : Bar) : bool :=
  (Lips b >? Teeth b) && (Teeth b >? Jaw b) && (Close b >? Lips b)
  && (ADX b >? Fin 30) && (CMO b >? Fin 40) && (Stoch_RSI b >? Fin 60)
  && (Volume_Change b >? Fin 0) && (Close b >? EMA_50 b)
  && (MACD b >? MACD_signal b).

(** One element of the boolean series [short_condition]. *)
Definition short_condition (b : Bar) : bool :=
  (Lips b <? Teeth b) && (Teeth b <? Jaw b) && (Close b <? Lips b)
  && (ADX b >? Fin 30) && (CMO b <? Fin (-40)) && (Stoch_RSI b <? Fin 40)
  && (Volume_Change b <? Fin 0) && (Close b <? EMA_50 b)
  && (MACD b <? MACD_signal b).

(** The two writes of [generate_signals], for any pair of masks. *)
Definition write_signals (long_mask short_mask : list bool)
           (data : DataFrame) : DataFrame :=
  let data := loc_assign_Signal long_mask 1 data in
  let data := loc_assign_Signal short_mask (-1) data in
  data.

Definition generate_signals (data : DataFrame) : DataFrame :=
  let data := assign_Signal 0 data in
  let long_mask := map long_condition data in
  let short_mask := map short_condition data in
  write_signals long_mask short_mask data.

(* ================================================================== *)
(** * Exceptions *)
(* ================================================================== *)

(** [trades[-1]] and [.iat[-1]] on an empty sequence raise [IndexError];
    [data[c]] raises [KeyError] when the frame has no column [c]. *)
Inductive exn : Type :=
| IndexError
| KeyError (column : string).

Inductive result (A : Type) : Type :=
| Ok (a : A)
| Raise (e : exn).
Arguments Ok {A} a.
Arguments Raise {A} e.

Definition bind {A B : Type} (c : result A) (k : A -> result B) : result B :=
  match c with
  | Ok a => k a
  | Raise e => Raise e
  end.

Notation "x <- c ;; k" := (bind c (fun x => k))
  (at level 61, c at next level, right associativity).

(* ================================================================== *)
(** * The ledger sink *)
(* ================================================================== *)

(** [v or 'None'] *)
Definition or_None (v : option num) : option num :=
  match v with
  | Some x => if x !=? zero then Some x else None
  | None => None
  end.

(** [record_trade]: one row inserted, one INFO line logged.  A failing
    insert (caught and logged by the function) is not modelled. *)
Definition record_trade (w : World) (timestamp : Z) (symbol : string)
           (direction : Direction) (entry_price : num)
           (exit_price profit : option num) (status : Status) : World :=
  {| db := db w ++ [Row.mk timestamp symbol direction entry_price
                           (or_None exit_price) (or_None profit) status];
     log := log w ++ [mkLog INFO (TradeExecuted direction entry_price
                                                exit_price profit status)] |}.

(* ================================================================== *)
(** * The back-test *)
(* ================================================================== *)

(** The local variables of [backtest_strategy] that live across bars, and
    the world it writes to. *)
Record State : Type := mkState {
  position : num;
  portfolio : num;
  trades : list Trade.t;
  entry_price : num;
  trailing_stop : num;
  world : World
}.

Definition default_initial_capital : num := Fin 1000.
Definition default_risk_per_trade : num := Fin 0.03.

(** [position, portfolio = 0, initial_capital;
     trades, entry_price, trailing_stop = [], 0, 0] *)
Definition initial_state (initial_capital : num) : State :=
  {| position := zero; portfolio := initial_capital; trades := [];
     entry_price := zero; trailing_stop := zero; world := empty_world |}.

(** [trades[-1].update({'exit_price': .., 'profit': .., 'status': 'Closed'})] *)
Definition close_trade (exit_price profit : num) (t : Trade.t) : Trade.t :=
  Trade.mk (Trade.timestamp t) (Trade.symbol t) (Trade.direction t)
           (Trade.entry_price t) (Some exit_price) (Some profit) Closed.

(** [trades[-1]]: raises on an empty list. *)
Fixpoint last_trade (l : list Trade.t) : result Trade.t :=
  match l with
  | [] => Raise IndexError
  | [t] => Ok t
  | _ :: l' => last_trade l'
  end.

Fixpoint update_last (f : Trade.t -> Trade.t) (l : list Trade.t)
  : result (list Trade.t) :=
  match l with
  | [] => Raise IndexError
  | [t] => Ok [f t]
  | t :: l' => l'' <- update_last f l' ;; Ok (t :: l'')
  end.

(** [volatility_factor], [stop_loss], [take_profit]: recomputed at the top
    of every iteration from the bar alone. *)
Definition volatility_factor (bar : Bar) : num := ATR bar / Close bar.

Definition stop_loss (bar : Bar) : num :=
  let atr := ATR bar in
  if volatility_factor bar <? Fin 0.01 then atr * Fin 2
  else if volatility_factor bar >? Fin 0.02 then atr * Fin 1.5
  else atr * Fin 1.75.

Definition take_profit (bar : Bar) : num :=
  let atr := ATR bar in
  if volatility_factor bar <? Fin 0.01 then atr * Fin 4
  else if volatility_factor bar >? Fin 0.02 then atr * Fin 3
  else atr * Fin 3.5.

Section Backtest.

Variable symbol : string.
Variables initial_capital risk_per_trade : num.

(** The body of the [for] loop, for the bar at position [i]. *)
Definition step (st : State) (bar : Bar) : result State :=
  let atr := ATR bar in
  let volatility_factor := volatility_factor bar in
  let stop_loss := stop_loss bar in
  let take_profit := take_profit bar in
  if (Signal bar =? 1)%Z && (position st ==? zero) then
    (* Long entry *)
    let position_size_factor :=
      Num.max (Fin 0.5) (Num.min (Fin 1.5) (Fin 0.02 / volatility_factor)) in
    let position' :=
      (initial_capital * risk_per_trade * position_size_factor)
      / stop_loss in
    let entry_price' := Close bar in
    let trailing_stop' := entry_price' - atr in
    let w := record_trade (world st) (index bar) symbol Long entry_price'
                          None None Open in
    Ok {| position := position'; portfolio := portfolio st;
          trades := trades st ++
                    [Trade.mk (index bar) symbol Long entry_price'
                              None None Open];
          entry_price := entry_price'; trailing_stop := trailing_stop';
          world := w |}
  else if (Signal bar =? -1)%Z && (position st ==? zero) then
    (* Short entry *)
    let position_size_factor :=
      Num.max (Fin 0.5) (Num.min (Fin 1.5) (Fin 0.02 / volatility_factor)) in
    let position' :=
      (- (initial_capital * risk_per_trade * position_size_factor))
      / stop_loss in
    let entry_price' := Close bar in
    let trailing_stop' := entry_price' + atr in
    let w := record_trade (world st) (index bar) symbol Short entry_price'
                          None None Open in
    Ok {| position := position'; portfolio := portfolio st;
          trades := trades st ++
                    [Trade.mk (index bar) symbol Short entry_price'
                              None None Open];
          entry_price := entry_price'; trailing_stop := trailing_stop';
          world := w |}
  else if position st !=? zero then
    (* Exit conditions *)
    let exit_price := Close bar in
    let trailing_stop' :=
      if (position st >? zero) && (exit_price >? entry_price st + atr)
      then Num.max (trailing_stop st) (exit_price - atr * Fin 1.5)
      else if (position st <? zero) && (exit_price <? entry_price st - atr)
      then Num.min (trailing_stop st) (exit_price + atr * Fin 1.5)
      else trailing_stop st in
    if (position st >? zero)
       && ((exit_price >=? entry_price st + take_profit)
           || (exit_price <=? trailing_stop')) then
      (* Close Long *)
      let profit := (exit_price - entry_price st) * position st in
      let w := record_trade (world st) (index bar) symbol Long
                            (entry_price st) (Some exit_price) (Some profit)
                            Closed in
      trades' <- update_last (close_trade exit_price profit) (trades st) ;;
      Ok {| position := zero; portfolio := portfolio st + profit;
            trades := trades'; entry_price := entry_price st;
            trailing_stop := trailing_stop'; world := w |}
    else if (position st <? zero)
            && ((exit_price <=? entry_price st - take_profit)
                || (exit_price >=? trailing_stop')) then
      (* Close Short *)
      let profit := (entry_price st - exit_price) * Num.abs (position st) in
      let w := record_trade (world st) (index bar) symbol Short
                            (entry_price st) (Some exit_price) (Some profit)
                            Closed in
      trades' <- update_last (close_trade exit_price profit) (trades st) ;;
      Ok {| position := zero; portfolio := portfolio st + profit;
            trades := trades'; entry_price := entry_price st;
            trailing_stop := trailing_stop'; world := w |}
    else
      Ok {| position := position st; portfolio := portfolio st;
            trades := trades st; entry_price := entry_price st;
            trailing_stop := trailing_stop'; world := world st |}
  else Ok st.

(** [for i in range(len(data)): ...] *)
Fixpoint loop (st : State) (data : DataFrame) : result State :=
  match data with
  | [] => Ok st
  | bar :: rest => st' <- step st bar ;; loop st' rest
  end.

(** [data['Close'].iat[-1]] and [data.index[-1]]: the last row, if any. *)
Definition last_bar (data : DataFrame) : result Bar :=
  match rev data with
  | [] => Raise IndexError
  | bar :: _ => Ok bar
  end.

(** The block after the loop.  [position] is not assigned here. *)
Definition forced_closure (data : DataFrame) (st : State) : result State :=
  if position st !=? zero then
    open_trade <- last_trade (trades st) ;;
    let log1 := log (world st) ++ [mkLog WARNING (StillOpen open_trade)] in
    last <- last_bar data ;;
    let exit_price := Close last in
    let profit :=
      if position st >? zero
      then (exit_price - entry_price st) * position st
      else (entry_price st - exit_price) * Num.abs (position st) in
    let portfolio' := portfolio st + profit in
    trades' <- update_last (close_trade exit_price profit) (trades st) ;;
    let log2 :=
      log1 ++ [mkLog WARNING (ForcedExit exit_price profit portfolio')] in
    closed <- last_trade trades' ;;
    let w := record_trade {| db := db (world st); log := log2 |}
                          (index last) symbol (Trade.direction closed)
                          (entry_price st) (Some exit_price) (Some profit)
                          Closed in
    Ok {| position := position st; portfolio := portfolio';
          trades := trades'; entry_price := entry_price st;
          trailing_stop := trailing_stop st; world := w |}
  else Ok st.

(** The whole function, keeping the final values of all its variables. *)
Definition backtest_run (data : DataFrame) : result State :=
  st <- loop (initial_state initial_capital) data ;;
  forced_closure data st.

(** [return trades, portfolio] *)
Definition backtest_strategy (data : DataFrame)
  : result (list Trade.t * num) :=
  st <- backtest_run data ;;
  Ok (trades st, portfolio st).

End Backtest.

(* ================================================================== *)
(** * The back-test on a frame that may lack columns *)
(* ================================================================== *)



Section BacktestOn.

Variable symbol : string.
Variables initial_capital risk_per_trade : num.






End BacktestOn.
(* ================================================================== *)
(** * Download check and the driver *)
(* ================================================================== *)

(** The frame [yf.download] hands back: the column labels (the level-0
    name, and the further levels when the columns are a MultiIndex) and the
    rows, each giving the cell under a level-0 name. *)
Record Frame : Type := mkFrame {
  columns : list (string * list string);
  rows : list (string -> num)
}.

(** [data.empty]: one of the two axes has length 0. *)
Definition empty (data : Frame) : bool :=
  match rows data, columns data with
  | [], _ | _, [] => true
  | _, _ => false
  end.

Definition required_columns : list string :=
  ["Open"; "High"; "Low"; "Close"; "Volume"]%string.

(** [required.issubset(names)] *)
Definition issubset (required names : list string) : bool :=
  forallb (fun c => existsb (String.eqb c) names) required.

Definition log_record (l : Level) (m : Message) (w : World) : World :=
  {| db := db w; log := log w ++ [mkLog l m] |}.

(** [download_data], given what [yf.download] did: [None] when it raised,
    the frame otherwise.  The result is [None] or the five OHLCV columns. *)
Definition download_data (fetched : option Frame) (symbol : string)
           (w : World) : option Frame * World :=
  let w := log_record INFO (Downloading symbol) w in
  match fetched with
  | None => (None, log_record ERROR DownloadFailed w)
  | Some data =>
      if empty data then (None, log_record ERROR (NoDataFound symbol) w)
      else
        let w := log_record INFO (Downloaded (List.length (rows data))) w in
        let names := map fst (columns data) in
        if negb (issubset required_columns names)
        then (None, log_record ERROR (MissingColumns names) w)
        else (Some {| columns := map (fun c => (c, [])) required_columns;
                      rows := rows data |}, w)
  end.

Definition extend (w w' : World) : World :=
  {| db := db w ++ db w'; log := log w ++ log w' |}.

Section Main.

(** [yf.download] for a symbol, and [calculate_alligator] followed by
    [calculate_indicators]: both are outside the program. *)
Variable fetch : string -> option Frame.
Variable indicators : Frame -> DataFrame.

Definition main_initial_capital : num := Fin 10000.

Definition symbols : list string :=
  ["BTC-USD"; "ETH-USD"; "XRP-USD"; "AAPL"; "MSTR"; "NVDA"]%string.

(** The body of the [for symbol in symbols] loop of [main]; the second
    component is [trades, portfolio] when the back-test was run. *)
Definition main_body (symbol : string) (w : World)
  : result (World * option (list Trade.t * num)) :=
  let initial_capital := main_initial_capital in
  match download_data (fetch symbol) symbol w with
  | (Some data, w) =>
      let data := generate_signals (indicators data) in
      st <- backtest_run symbol initial_capital default_risk_per_trade data ;;
      let w := extend w (world st) in
      Ok (log_record INFO
                     (FinalResults symbol (List.length (trades st)) (portfolio st)
                                   initial_capital) w,
          Some (trades st, portfolio st))
  | (None, w) => Ok (log_record ERROR (NoDataAvailable symbol) w, None)
  end.

Fixpoint main_loop (l : list string) (w : World) : result World :=
  match l with
  | [] => Ok w
  | symbol :: rest => r <- main_body symbol w ;; main_loop rest (fst r)
  end.

(** [initialize_db()], then the loop over the symbols. *)
Definition main : result World :=
  main_loop symbols (log_record INFO DatabaseInitialized empty_world).

End Main.

(* ================================================================== *)
(** * Derived definitions used in the statements *)
(* ================================================================== *)

(** The value the two writes of [generate_signals] leave in the [Signal]
    cell of a row. *)
Definition signal_of (b : Bar) : Z :=
  if short_condition b then (-1)%Z
  else if long_condition b then 1%Z else 0%Z.

Definition is_closed (t : Trade.t) : bool :=
  match Trade.status t with Closed => true | Open => false end.

(** The [profit] fields of the trades whose status is Closed, in list
    order. *)
Definition closed_profits (l : list Trade.t) : list num :=
  flat_map (fun t => match Trade.status t, Trade.profit t with
                     | Closed, Some p => [p]
                     | _, _ => []
                     end) l.

(** A Closed trade carries an exit price and a profit. *)
Definition settled (t : Trade.t) : Prop :=
  Trade.status t = Closed ->
  exists x p, Trade.exit_price t = Some x /\ Trade.profit t = Some p.

(** [max(0.5, min(1.5, 0.02 / volatility_factor))] *)
Definition position_size_factor (bar : Bar) : num :=
  Num.max (Fin 0.5) (Num.min (Fin 1.5) (Fin 0.02 / volatility_factor bar)).

(** Profit of closing a position of signed size [pos] entered at [entry]
    when the price is [exit]. *)
Definition realized_profit (pos entry exit : num) : num :=
  if pos >? zero then (exit - entry) * pos
  else (entry - exit) * Num.abs pos.

(** The trailing stop after the update at the top of the exit branch. *)
Definition ratchet (st : State) (bar : Bar) : num :=
  if (position st >? zero) && (Close bar >? entry_price st + ATR bar)
  then Num.max (trailing_stop st) (Close bar - ATR bar * Fin 1.5)
  else if (position st <? zero) && (Close bar <? entry_price st - ATR bar)
  then Num.min (trailing_stop st) (Close bar + ATR bar * Fin 1.5)
  else trailing_stop st.

Definition long_exit (st : State) (bar : Bar) : bool :=
  (position st >? zero)
  && ((Close bar >=? entry_price st + take_profit bar)
      || (Close bar <=? ratchet st bar)).

Definition short_exit (st : State) (bar : Bar) : bool :=
  (position st <? zero)
  && ((Close bar <=? entry_price st - take_profit bar)
      || (Close bar >=? ratchet st bar)).

(** [x] is unchanged or strictly raised (lowered) to [y]. *)
Definition raised (x y : num) : Prop := y = x \/ (x <? y) = true.
Definition lowered (x y : num) : Prop := y = x \/ (y <? x) = true.

Section Derived.

Variable symbol : string.
Variables initial_capital risk_per_trade : num.

Definition long_size (bar : Bar) : num :=
  (initial_capital * risk_per_trade * position_size_factor bar)
  / stop_loss bar.

Definition short_size (bar : Bar) : num :=
  (- (initial_capital * risk_per_trade * position_size_factor bar))
  / stop_loss bar.

(** The dictionary appended on entry. *)
Definition opened (bar : Bar) (d : Direction) : Trade.t :=
  Trade.mk (index bar) symbol d (Close bar) None None Open.

(** The six ways through the loop body. *)
Inductive Outcome (st : State) (bar : Bar) (st' : State) : Prop :=
| Entered_long :
    Signal bar = 1%Z -> (position st ==? zero) = true ->
    st' = {| position := long_size bar; portfolio := portfolio st;
             trades := trades st ++ [opened bar Long];
             entry_price := Close bar;
             trailing_stop := Close bar - ATR bar;
             world := record_trade (world st) (index bar) symbol Long
                                   (Close bar) None None Open |} ->
    Outcome st bar st'
| Entered_short :
    Signal bar = (-1)%Z -> (position st ==? zero) = true ->
    st' = {| position := short_size bar; portfolio := portfolio st;
             trades := trades st ++ [opened bar Short];
             entry_price := Close bar;
             trailing_stop := Close bar + ATR bar;
             world := record_trade (world st) (index bar) symbol Short
                                   (Close bar) None None Open |} ->
    Outcome st bar st'
| Exited_long (l : list Trade.t) (t : Trade.t) :
    (position st >? zero) = true -> long_exit st bar = true ->
    trades st = l ++ [t] ->
    let profit := (Close bar - entry_price st) * position st in
    st' = {| position := zero; portfolio := portfolio st + profit;
             trades := l ++ [close_trade (Close bar) profit t];
             entry_price := entry_price st;
             trailing_stop := ratchet st bar;
             world := record_trade (world st) (index bar) symbol Long
                                   (entry_price st) (Some (Close bar))
                                   (Some profit) Closed |} ->
    Outcome st bar st'
| Exited_short (l : list Trade.t) (t : Trade.t) :
    (position st <? zero) = true -> short_exit st bar = true ->
    trades st = l ++ [t] ->
    let profit := (entry_price st - Close bar) * Num.abs (position st) in
    st' = {| position := zero; portfolio := portfolio st + profit;
             trades := l ++ [close_trade (Close bar) profit t];
             entry_price := entry_price st;
             trailing_stop := ratchet st bar;
             world := record_trade (world st) (index bar) symbol Short
                                   (entry_price st) (Some (Close bar))
                                   (Some profit) Closed |} ->
    Outcome st bar st'
| Held :
    (position st !=? zero) = true ->
    long_exit st bar = false -> short_exit st bar = false ->
    st' = {| position := position st; portfolio := portfolio st;
             trades := trades st; entry_price := entry_price st;
             trailing_stop := ratchet st bar; world := world st |} ->
    Outcome st bar st'
| Idle :
    (position st ==? zero) = true ->
    Signal bar <> 1%Z -> Signal bar <> (-1)%Z ->
    st' = st ->
    Outcome st bar st'.

(** Every entry signal in the frame gets a non-zero size. *)
Definition sized_entry (bar : Bar) : bool :=
  (if (Signal bar =? 1)%Z then long_size bar !=? zero else true)
  && (if (Signal bar =? -1)%Z then short_size bar !=? zero else true).

Definition sized_entries (data : DataFrame) : bool :=
  forallb sized_entry data.

(** What holds of the variables at the top of every iteration. *)
Definition ledger_inv (st : State) : Prop :=
  portfolio st = fold_left Num.add (closed_profits (trades st))
                           initial_capital
  /\ ((position st !=? zero) = true ->
      exists l t, trades st = l ++ [t] /\ Trade.status t = Open)
  /\ Forall settled (trades st).

(** With sized entries, exactly the open position's trade is Open. *)
Definition closed_inv (st : State) : Prop :=
  ((position st ==? zero) = true ->
   forallb is_closed (trades st) = true)
  /\ ((position st !=? zero) = true ->
      exists l t, trades st = l ++ [t]
                  /\ forallb is_closed l = true
                  /\ Trade.status t = Open).

(** The bars of [bars] are all processed while a long (short) position is
    open: they belong to the life of one trade. *)
Fixpoint long_held (st : State) (bars : DataFrame) : Prop :=
  match bars with
  | [] => True
  | bar :: rest =>
      (position st >? zero) = true
      /\ match step symbol initial_capital risk_per_trade st bar with
         | Ok st1 => long_held st1 rest
         | Raise _ => False
         end
  end.

Fixpoint short_held (st : State) (bars : DataFrame) : Prop :=
  match bars with
  | [] => True
  | bar :: rest =>
      (position st <? zero) = true
      /\ match step symbol initial_capital risk_per_trade st bar with
         | Ok st1 => short_held st1 rest
         | Raise _ => False
         end
  end.

End Derived.



(* ================================================================== *)
(** * Concrete frames *)
(* ================================================================== *)

(** A row with the given index, close, ATR and signal; the indicator
    columns, which the back-test does not read, are 0. *)
Definition bar_of (i : Z) (close atr : Q) (signal : Z) : Bar :=
  {| index := i; Close := Fin close; Jaw := zero; Teeth := zero;
     Lips := zero; ADX := zero; CMO := zero; Stoch_RSI := zero;
     ATR := Fin atr; Volume_Change := zero; EMA_50 := zero; MACD := zero;
     MACD_signal := zero; Signal := signal |}.

(** Entry at 100 with ATR 2, then a close of 108. *)
Definition scenario_A : DataFrame := [bar_of 0 100 2 1; bar_of 1 108 2 0].

(** Scenario A followed by a second long signal. *)
Definition scenario_A_reentry : DataFrame := scenario_A ++ [bar_of 2 100 2 1].

(** A long position opened on the second-to-last bar and not exited on the
    last one. *)
Definition scenario_D : DataFrame :=
  [bar_of 0 100 2 0; bar_of 1 100 2 1; bar_of 2 101 2 0].

(** The bar after the entry of scenario A, with a smaller ATR: the
    take-profit distance is 4 instead of the 7 of the entry bar. *)
Definition calm_bar : Bar := bar_of 1 105 1 0.

(** An entry signal on a bar whose ATR is 0. *)
Definition zero_atr_bar : Bar := bar_of 0 100 0 1.

(** A row on which all nine long conditions hold. *)
Definition long_row : Bar :=
  {| index := 0; Close := Fin 110; Jaw := Fin 100; Teeth := Fin 102;
     Lips := Fin 105; ADX := Fin 35; CMO := Fin 45; Stoch_RSI := Fin 70;
     ATR := Fin 2; Volume_Change := Fin 0.1; EMA_50 := Fin 101;
     MACD := Fin 1; MACD_signal := Fin 0.5; Signal := 7 |}.

(** The state after the entry bar of scenario A. *)
Definition after_entry_A : State :=
  {| position := Fin (600 # 7); portfolio := Fin 10000;
     trades := [Trade.mk 0 "X" Long (Fin 100) None None Open];
     entry_price := Fin 100; trailing_stop := Fin 98;
     world := empty_world |}.

(** The mirror: a short position of the same size entered at 100. *)
Definition after_short_entry : State :=
  {| position := Fin (- 600 # 7); portfolio := Fin 10000;
     trades := [Trade.mk 0 "X" Short (Fin 100) None None Open];
     entry_price := Fin 100; trailing_stop := Fin 102;
     world := empty_world |}.



(** The state one bar later, the close having moved to 104 (to 96). *)
Definition after_hold_A : State :=
  Eval vm_compute in
    match step "X" (Fin 10000) (Fin 0.03) after_entry_A (bar_of 1 104 2 0) with
    | Ok st => st
    | Raise _ => after_entry_A
    end.

Definition after_short_hold : State :=
  Eval vm_compute in
    match step "X" (Fin 10000) (Fin 0.03) after_short_entry
               (bar_of 1 96 2 0) with
    | Ok st => st
    | Raise _ => after_short_entry
    end.

Definition no_warning (l : list LogRecord) : bool :=
  forallb (fun r => match level r with WARNING => false | _ => true end) l.



(* ================================================================== *)
(** * Feature columns *)
(* ================================================================== *)

Definition is_nan (x : num) : bool :=
  match x with NaN => true | _ => false end.

(** [s.shift(n)] for a non-negative [n]: the values move down by [n] rows,
    the first [n] rows become [nan], the length stays. *)
Definition shift (n : nat) (s : list num) : list num :=
  firstn (List.length s) (repeat NaN n ++ s).

(** [s.ffill()]: a [nan] takes the last value seen before it, if any. *)
Fixpoint ffill_from (prev : num) (s : list num) : list num :=
  match s with
  | [] => []
  | x :: rest =>
      let y := if is_nan x then prev else x in
      y :: ffill_from y rest
  end.

Definition ffill (s : list num) : list num := ffill_from NaN s.

(** [data[column] = s] for a series carrying the frame's index: row [i]
    receives the [i]-th value, and [nan] where the series has none. *)
Fixpoint assign_column (set : num -> Bar -> Bar) (s : list num)
         (data : DataFrame) : DataFrame :=
  match data with
  | [] => []
  | b :: rest => set (hd NaN s) b :: assign_column set (tl s) rest
  end.

Definition with_Close (v : num) (b : Bar) : Bar :=
  {| index := index b; Close := v; Jaw := Jaw b; Teeth := Teeth b;
     Lips := Lips b; ADX := ADX b; CMO := CMO b; Stoch_RSI := Stoch_RSI b;
     ATR := ATR b; Volume_Change := Volume_Change b; EMA_50 := EMA_50 b;
     MACD := MACD b; MACD_signal := MACD_signal b; Signal := Signal b |}.

Definition with_Jaw (v : num) (b : Bar) : Bar :=
  {| index := index b; Close := Close b; Jaw := v; Teeth := Teeth b;
     Lips := Lips b; ADX := ADX b; CMO := CMO b; Stoch_RSI := Stoch_RSI b;
     ATR := ATR b; Volume_Change := Volume_Change b; EMA_50 := EMA_50 b;
     MACD := MACD b; MACD_signal := MACD_signal b; Signal := Signal b |}.

Definition with_Teeth (v : num) (b : Bar) : Bar :=
  {| index := index b; Close := Close b; Jaw := Jaw b; Teeth := v;
     Lips := Lips b; ADX := ADX b; CMO := CMO b; Stoch_RSI := Stoch_RSI b;
     ATR := ATR b; Volume_Change := Volume_Change b; EMA_50 := EMA_50 b;
     MACD := MACD b; MACD_signal := MACD_signal b; Signal := Signal b |}.

Definition with_Lips (v : num) (b : Bar) : Bar :=
  {| index := index b; Close := Close b; Jaw := Jaw b; Teeth := Teeth b;
     Lips := v; ADX := ADX b; CMO := CMO b; Stoch_RSI := Stoch_RSI b;
     ATR := ATR b; Volume_Change := Volume_Change b; EMA_50 := EMA_50 b;
     MACD := MACD b; MACD_signal := MACD_signal b; Signal := Signal b |}.

Definition with_ADX (v : num) (b : Bar) : Bar :=
  {| index := index b; Close := Close b; Jaw := Jaw b; Teeth := Teeth b;
     Lips := Lips b; ADX := v; CMO := CMO b; Stoch_RSI := Stoch_RSI b;
     ATR := ATR b; Volume_Change := Volume_Change b; EMA_50 := EMA_50 b;
     MACD := MACD b; MACD_signal := MACD_signal b; Signal := Signal b |}.

Definition with_CMO (v : num) (b : Bar) : Bar :=
  {| index := index b; Close := Close b; Jaw := Jaw b; Teeth := Teeth b;
     Lips := Lips b; ADX := ADX b; CMO := v; Stoch_RSI := Stoch_RSI b;
     ATR := ATR b; Volume_Change := Volume_Change b; EMA_50 := EMA_50 b;
     MACD := MACD b; MACD_signal := MACD_signal b; Signal := Signal b |}.

Definition with_Stoch_RSI (v : num) (b : Bar) : Bar :=
  {| index := index b; Close := Close b; Jaw := Jaw b; Teeth := Teeth b;
     Lips := Lips b; ADX := ADX b; CMO := CMO b; Stoch_RSI := v;
     ATR := ATR b; Volume_Change := Volume_Change b; EMA_50 := EMA_50 b;
     MACD := MACD b; MACD_signal := MACD_signal b; Signal := Signal b |}.

Definition with_ATR (v : num) (b : Bar) : Bar :=
  {| index := index b; Close := Close b; Jaw := Jaw b; Teeth := Teeth b;
     Lips := Lips b; ADX := ADX b; CMO := CMO b; Stoch_RSI := Stoch_RSI b;
     ATR := v; Volume_Change := Volume_Change b; EMA_50 := EMA_50 b;
     MACD := MACD b; MACD_signal := MACD_signal b; Signal := Signal b |}.

Definition with_Volume_Change (v : num) (b : Bar) : Bar :=
  {| index := index b; Close := Close b; Jaw := Jaw b; Teeth := Teeth b;
     Lips := Lips b; ADX := ADX b; CMO := CMO b; Stoch_RSI := Stoch_RSI b;
     ATR := ATR b; Volume_Change := v; EMA_50 := EMA_50 b;
     MACD := MACD b; MACD_signal := MACD_signal b; Signal := Signal b |}.

Definition with_EMA_50 (v : num) (b : Bar) : Bar :=
  {| index := index b; Close := Close b; Jaw := Jaw b; Teeth := Teeth b;
     Lips := Lips b; ADX := ADX b; CMO := CMO b; Stoch_RSI := Stoch_RSI b;
     ATR := ATR b; Volume_Change := Volume_Change b; EMA_50 := v;
     MACD := MACD b; MACD_signal := MACD_signal b; Signal := Signal b |}.

Definition with_MACD (v : num) (b : Bar) : Bar :=
  {| index := index b; Close := Close b; Jaw := Jaw b; Teeth := Teeth b;
     Lips := Lips b; ADX := ADX b; CMO := CMO b; Stoch_RSI := Stoch_RSI b;
     ATR := ATR b; Volume_Change := Volume_Change b; EMA_50 := EMA_50 b;
     MACD := v; MACD_signal := MACD_signal b; Signal := Signal b |}.

Definition with_MACD_signal (v : num) (b : Bar) : Bar :=
  {| index := index b; Close := Close b; Jaw := Jaw b; Teeth := Teeth b;
     Lips := Lips b; ADX := ADX b; CMO := CMO b; Stoch_RSI := Stoch_RSI b;
     ATR := ATR b; Volume_Change := Volume_Change b; EMA_50 := EMA_50 b;
     MACD := MACD b; MACD_signal := v; Signal := Signal b |}.

(** Forward fill of one column. *)
Definition ffill_column (get : Bar -> num) (set : num -> Bar -> Bar)
           (data : DataFrame) : DataFrame :=
  assign_column set (ffill (map get data)) data.

(** [data.ffill()] on the value columns of the frame. *)
Definition ffill_frame (data : DataFrame) : DataFrame :=
  let data := ffill_column Close with_Close data in
  let data := ffill_column Jaw with_Jaw data in
  let data := ffill_column Teeth with_Teeth data in
  let data := ffill_column Lips with_Lips data in
  let data := ffill_column ADX with_ADX data in
  let data := ffill_column CMO with_CMO data in
  let data := ffill_column Stoch_RSI with_Stoch_RSI data in
  let data := ffill_column ATR with_ATR data in
  let data := ffill_column Volume_Change with_Volume_Change data in
  let data := ffill_column EMA_50 with_EMA_50 data in
  let data := ffill_column MACD with_MACD data in
  let data := ffill_column MACD_signal with_MACD_signal data in
  data.

Section Indicators.

(** The library routines, which are outside the program: pandas'
    [ewm(span, adjust=False).mean()] and [pct_change()], and the TA-Lib
    functions with their period arguments. *)
Variable ewm_mean : nat -> list num -> list num.
Variable pct_change : list num -> list num.
Variable talib_ADX : list num -> list num -> list num -> nat -> list num.
Variable talib_CMO : list num -> nat -> list num.
Variable talib_STOCHRSI :
  list num -> nat -> nat -> nat -> nat -> list num * list num.
Variable talib_ATR : list num -> list num -> list num -> nat -> list num.
Variable talib_EMA : list num -> nat -> list num.
Variable talib_MACD :
  list num -> nat -> nat -> nat -> list num * list num * list num.

Definition calculate_alligator (data : DataFrame) : DataFrame :=
  let data :=
    assign_column with_Jaw (shift 8 (ewm_mean 13 (map Close data))) data in
  let data :=
    assign_column with_Teeth (shift 5 (ewm_mean 8 (map Close data))) data in
  let data :=
    assign_column with_Lips (shift 3 (ewm_mean 5 (map Close data))) data in
  data.

(** [calculate_indicators]; [high], [low] and [volume] are the frame's
    columns of those names, which the later stages do not read. *)
Definition calculate_indicators (high low volume : list num)
           (data : DataFrame) : DataFrame :=
  let close := map Close data in
  let data := assign_column with_ADX (talib_ADX high low close 14) data in
  let data := assign_column with_CMO (talib_CMO close 14) data in
  let data :=
    assign_column with_Stoch_RSI (fst (talib_STOCHRSI close 14 3 3 0)) data in
  let data := assign_column with_ATR (talib_ATR high low close 14) data in
  let data := assign_column with_Volume_Change (pct_change volume) data in
  let data := assign_column with_EMA_50 (talib_EMA close 50) data in
  let macd := talib_MACD close 12 26 9 in
  let data := assign_column with_MACD (fst (fst macd)) data in
  let data := assign_column with_MACD_signal (snd (fst macd)) data in
  ffill_frame data.

(** The three feature stages of [main], in the order it applies them. *)
Definition features (high low volume : list num) (data : DataFrame)
  : DataFrame :=
  generate_signals
    (calculate_indicators high low volume (calculate_alligator data)).

End Indicators.

(* ================================================================== *)
(** * Vocabulary of the further properties *)
(* ================================================================== *)

Definition signal_bar (b : Bar) : bool :=
  (Signal b =? 1)%Z || (Signal b =? -1)%Z.

(** The columns the two conditions of [generate_signals] compare. *)
Definition compared_columns (b : Bar) : list num :=
  [Close b; Jaw b; Teeth b; Lips b; ADX b; CMO b; Stoch_RSI b;
   Volume_Change b; EMA_50 b; MACD b; MACD_signal b].

(** The signal that opens a trade of a given direction. *)
Definition signal_for (d : Direction) : Z :=
  match d with Long => 1%Z | Short => (-1)%Z end.

(** The trade was opened on a bar of the frame carrying its signal. *)
Definition from_signal_bar (symbol : string) (data : DataFrame)
           (t : Trade.t) : Prop :=
  exists bar,
    In bar data
    /\ Signal bar = signal_for (Trade.direction t)
    /\ Trade.timestamp t = index bar
    /\ Trade.entry_price t = Close bar
    /\ Trade.symbol t = symbol.

(** What a trade is created with. *)
Definition opening (t : Trade.t) : Z * string * Direction * num :=
  (Trade.timestamp t, Trade.symbol t, Trade.direction t,
   Trade.entry_price t).

Definition row_open (r : Row.t) : bool :=
  match r with
  | Row.mk _ _ _ _ _ _ Open => true
  | Row.mk _ _ _ _ _ _ Closed => false
  end.

(** The row [record_trade] inserts when the trade is opened. *)
Definition open_row (t : Trade.t) : Row.t :=
  Row.mk (Trade.timestamp t) (Trade.symbol t) (Trade.direction t)
         (Trade.entry_price t) None None Open.

(** Prices and profit of a Closed row, and what [record_trade] stores of a
    Closed trade. *)
Definition row_result (r : Row.t) : num * option num * option num :=
  match r with
  | Row.mk _ _ _ entry exit profit _ => (entry, exit, profit)
  end.

Definition stored_result (t : Trade.t) : num * option num * option num :=
  (Trade.entry_price t, or_None (Trade.exit_price t),
   or_None (Trade.profit t)).

(** What the loop keeps true of the ledger. *)
Definition mirror_inv (st : State) : Prop :=
  filter row_open (db (world st)) = map open_row (trades st)
  /\ map row_result (filter (fun r => negb (row_open r)) (db (world st)))
     = map stored_result (filter is_closed (trades st))
  /\ map level (log (world st))
     = repeat INFO (List.length (db (world st)))
  /\ ((position st !=? zero) = true ->
      exists l t, trades st = l ++ [t]
                  /\ Trade.entry_price t = entry_price st).

Definition is_final_record (r : LogRecord) : bool :=
  match message r with
  | FinalResults _ _ _ _ | NoDataAvailable _ => true
  | _ => false
  end.

(** Between two states of the trade list: it only grew at the end, no
    trade changed what it was opened with, and every trade that was Closed
    is still there, unchanged. *)
Definition history_kept (l l' : list Trade.t) : Prop :=
  (exists ext, map opening l' = map opening l ++ ext)
  /\ forall i t,
      nth_error l i = Some t -> Trade.status t = Closed ->
      nth_error l' i = Some t.

(* ================================================================== *)
(** * Further concrete frames and states *)
(* ================================================================== *)

(** Two bars without a signal. *)
Definition quiet_frame : DataFrame := [bar_of 0 100 2 0; bar_of 1 101 2 0].

Definition run_or_initial (r : result State) : State :=
  match r with Ok st => st | Raise _ => initial_state zero end.

(** Scenario D after its loop and after the forced closure. *)
Definition loop_D : State :=
  Eval vm_compute in
    run_or_initial
      (loop "X" (Fin 10000) (Fin 0.03) (initial_state (Fin 10000))
            scenario_D).

Definition final_D : State :=
  Eval vm_compute in
    run_or_initial (backtest_run "X" (Fin 10000) (Fin 0.03) scenario_D).

(** Scenario A after its loop, and the end of the run that re-enters. *)
Definition loop_A : State :=
  Eval vm_compute in
    run_or_initial
      (loop "X" (Fin 10000) (Fin 0.03) (initial_state (Fin 10000))
            scenario_A).

Definition final_A_reentry : State :=
  Eval vm_compute in
    run_or_initial
      (backtest_run "X" (Fin 10000) (Fin 0.03) scenario_A_reentry).

(** The long row during the warm-up of the jaw line. *)
Definition warmup_row : Bar := with_Jaw NaN long_row.

(** A download with the five required columns under a ticker level, one
    more column, and one row. *)
Definition full_frame : Frame :=
  {| columns := [("Adj Close", ["AAPL"]); ("Close", ["AAPL"]);
                 ("High", ["AAPL"]); ("Low", ["AAPL"]); ("Open", ["AAPL"]);
                 ("Volume", ["AAPL"])]%string;
     rows := [fun _ => Fin 1] |}.

Definition checked_frame : Frame :=
  {| columns := map (fun c => (c, [])) required_columns;
     rows := rows full_frame |}.

(** A driver whose download always succeeds and whose features are those
    of scenario D, and the outcome of one pass of its loop. *)
Definition demo_fetch (symbol : string) : option Frame := Some full_frame.
Definition demo_indicators (f : Frame) : DataFrame := scenario_D.

Definition demo_result : option (list Trade.t * num) :=
  Eval vm_compute in
    match main_body demo_fetch demo_indicators "AAPL" empty_world with
    | Ok (_, r) => r
    | Raise _ => None
    end.

Definition demo_world : World :=
  Eval vm_compute in
    match main_body demo_fetch demo_indicators "AAPL" empty_world with
    | Ok (w, _) => w
    | Raise _ => empty_world
    end.

(** The value columns of the frame, and a column without a gap: once a row
    holds a value, every later row does. *)
Definition value_columns : list (Bar -> num) :=
  [Close; Jaw; Teeth; Lips; ADX; CMO; Stoch_RSI; ATR; Volume_Change;
   EMA_50; MACD; MACD_signal].

Definition no_gap (s : list num) : Prop :=
  forall i j,
    (i <= j)%nat -> (j < List.length s)%nat ->
    nth i s NaN <> NaN -> nth j s NaN <> NaN.

(** A stand-in for the moving average in examples: the series itself. *)
Definition same_series (span : nat) (s : list num) : list num := s.

Definition rising_closes : DataFrame :=
  map (fun i => bar_of (Z.of_nat i) (inject_Z (Z.of_nat (100 + i))) 2 0)
      (seq 0 10).

(** Two states hold the same position: both are flat, or size, entry price
    and trailing stop coincide. *)
Definition same_position (s1 s2 : State) : Prop :=
  ((position s1 ==? zero) = true /\ (position s2 ==? zero) = true)
  \/ (position s1 = position s2
      /\ entry_price s1 = entry_price s2
      /\ trailing_stop s1 = trailing_stop s2).

(** [s1] is [s2] with the earlier trades [before] in front of its list. *)
Definition continues (before : list Trade.t) (s1 s2 : State) : Prop :=
  same_position s1 s2 /\ trades s1 = before ++ trades s2.

(* ================================================================== *)
(** * Facts about the scalars *)
(* ================================================================== *)

Section NumFacts.

Lemma Qle_bool_false (a b : Q) : Qle_bool a b = false <-> (b < a)%Q.
Proof.
  split; intro H.
  - apply Qnot_le_lt. intro Hle. apply Qle_bool_iff in Hle. congruence.
  - destruct (Qle_bool a b) eqn:E; [|reflexivity].
    apply Qle_bool_iff in E. lra.
Qed.

Lemma Qeq_bool_false (a b : Q) : Qeq_bool a b = false <-> ~ (a == b)%Q.
Proof.
  split; intro H.
  - now apply Qeq_bool_neq.
  - destruct (Qeq_bool a b) eqn:E; [|reflexivity].
    apply Qeq_bool_iff in E. contradiction.
Qed.

Lemma neqb_negb (x y : num) : (x !=? y) = negb (x ==? y).
Proof. reflexivity. Qed.

Lemma ltb_asym (x y : num) : (x <? y) = true -> (y <? x) = false.
Proof.
  destruct x as [a| | |], y as [b| | |]; cbn; try congruence.
  rewrite !negb_true_iff, negb_false_iff, Qle_bool_false, Qle_bool_iff.
  lra.
Qed.

Lemma ltb_trans (x y z : num) :
  (x <? y) = true -> (y <? z) = true -> (x <? z) = true.
Proof.
  destruct x as [a| | |], y as [b| | |], z as [c| | |]; cbn;
    try congruence.
  rewrite !negb_true_iff, !Qle_bool_false. lra.
Qed.

Lemma ltb_leb (x y : num) : (x <? y) = true -> (x <=? y) = true.
Proof.
  destruct x as [a| | |], y as [b| | |]; cbn; try congruence.
  rewrite negb_true_iff, Qle_bool_false, Qle_bool_iff. lra.
Qed.

Lemma leb_refl (x : num) : x <> NaN -> (x <=? x) = true.
Proof.
  destruct x as [a| | |]; cbn; try congruence.
  intros _. apply Qle_bool_iff. lra.
Qed.

Lemma ltb_neqb (x y : num) : (x <? y) = true -> (x ==? y) = false.
Proof.
  destruct x as [a| | |], y as [b| | |]; cbn; try congruence.
  rewrite negb_true_iff, Qle_bool_false, Qeq_bool_false. lra.
Qed.

Lemma gtb_neqb (x y : num) : (x >? y) = true -> (x ==? y) = false.
Proof.
  unfold Num.gtb.
  destruct x as [a| | |], y as [b| | |]; cbn; try congruence.
  rewrite negb_true_iff, Qle_bool_false, Qeq_bool_false. lra.
Qed.

Lemma same_refl (x : num) : x =~ x.
Proof. destruct x; cbn; auto. reflexivity. Qed.

Lemma same_sym (x y : num) : x =~ y -> y =~ x.
Proof. destruct x, y; cbn; auto. intro H. now symmetry. Qed.

Lemma same_trans (x y z : num) : x =~ y -> y =~ z -> x =~ z.
Proof.
  destruct x, y, z; cbn; auto; try contradiction.
  intros H1 H2. now rewrite H1.
Qed.

Lemma add_same (x x' y y' : num) :
  x =~ x' -> y =~ y' -> x + y =~ x' + y'.
Proof.
  destruct x, x', y, y'; cbn; auto; try contradiction.
  intros H1 H2. now rewrite H1, H2.
Qed.

Lemma add_zero_r (x : num) : x + zero =~ x.
Proof. destruct x; cbn; auto. ring. Qed.

(** Python's [max(0.5, min(1.5, x))] always lands in [[0.5, 1.5]];
    a [nan] argument gives 1.5. *)
Lemma clamp_range (x : num) :
  let c := Num.max (Fin 0.5) (Num.min (Fin 1.5) x) in
  (Fin 0.5 <=? c) = true /\ (c <=? Fin 1.5) = true.
Proof.
  unfold Num.max, Num.min, Num.gtb.
  destruct x as [a| | |]; cbn; auto.
  destruct (Qle_bool 1.5 a) eqn:E1; cbn; auto.
  destruct (Qle_bool a 0.5) eqn:E2; cbn; auto.
  apply Qle_bool_false in E1, E2.
  split; apply Qle_bool_iff; lra.
Qed.

(** The clamp as the usual piecewise function on finite arguments. *)
Lemma clamp_finite (a : Q) :
  Num.max (Fin 0.5) (Num.min (Fin 1.5) (Fin a)) =
  Fin (if Qle_bool a 0.5 then 0.5 else if Qle_bool 1.5 a then 1.5 else a).
Proof.
  unfold Num.max, Num.min, Num.gtb. cbn.
  destruct (Qle_bool 1.5 a) eqn:E1; cbn.
  - destruct (Qle_bool a 0.5) eqn:E2; [|reflexivity].
    apply Qle_bool_iff in E1, E2. lra.
  - destruct (Qle_bool a 0.5); reflexivity.
Qed.

End NumFacts.

(* ================================================================== *)
(** * Properties of the signal *)
(* ================================================================== *)

Section Signals.

Lemma loc_assign_nth (mask : list bool) (v : Z) (data : DataFrame) :
  forall i m b,
    nth_error mask i = Some m -> nth_error data i = Some b ->
    nth_error (loc_assign_Signal mask v data) i
    = Some (if m then set_Signal v b else b).
Proof.
  unfold loc_assign_Signal.
  revert data. induction mask as [|m0 mask IH]; intros data i m b Hm Hb.
  - destruct i; discriminate.
  - destruct data as [|b0 data]; [destruct i; discriminate|].
    destruct i as [|i]; cbn in *.
    + now inversion Hm; inversion Hb; subst.
    + now apply IH.
Qed.

(** Whatever the two masks are, the short write comes last. *)
Lemma write_signals_nth (l s : list bool) (data : DataFrame) :
  forall i lm sm b,
    nth_error l i = Some lm -> nth_error s i = Some sm ->
    nth_error data i = Some b ->
    nth_error (write_signals l s data) i
    = Some (if sm then set_Signal (-1) b
            else if lm then set_Signal 1 b else b).
Proof.
  intros i lm sm b Hl Hs Hb. unfold write_signals.
  rewrite (loc_assign_nth s (-1) _ i sm (if lm then set_Signal 1 b else b)
             Hs (loc_assign_nth l 1 data i lm b Hl Hb)).
  destruct sm, lm; reflexivity.
Qed.

Lemma generate_signals_nth (data : DataFrame) (i : nat) (b : Bar) :
  nth_error data i = Some b ->
  nth_error (generate_signals data) i = Some (set_Signal (signal_of b) b).
Proof.
  intro Hb. unfold generate_signals, assign_Signal.
  rewrite (write_signals_nth _ _ _ i (long_condition b) (short_condition b)
             (set_Signal 0 b)).
  - unfold signal_of.
    destruct (short_condition b), (long_condition b); reflexivity.
  - rewrite map_map, nth_error_map, Hb. reflexivity.
  - rewrite map_map, nth_error_map, Hb. reflexivity.
  - rewrite nth_error_map, Hb. reflexivity.
Qed.

Lemma long_short_exclusive (b : Bar) :
  long_condition b = true -> short_condition b = false.
Proof.
  unfold long_condition, short_condition. intro H.
  repeat (apply andb_true_iff in H; destruct H as [H ?]).
  unfold Num.gtb in H. apply ltb_asym in H. now rewrite H.
Qed.

Lemma signal_of_long (b : Bar) : signal_of b = 1%Z <-> long_condition b = true.
Proof.
  unfold signal_of. split.
  - destruct (short_condition b); [discriminate|].
    destruct (long_condition b); [reflexivity|discriminate].
  - intro H. now rewrite (long_short_exclusive b H), H.
Qed.

Lemma signal_of_short (b : Bar) :
  signal_of b = (-1)%Z <-> short_condition b = true.
Proof.
  unfold signal_of.
  destruct (short_condition b), (long_condition b); split;
    congruence || discriminate.
Qed.

Lemma signal_of_flat (b : Bar) :
  signal_of b = 0%Z <->
  long_condition b = false /\ short_condition b = false.
Proof.
  unfold signal_of.
  destruct (short_condition b), (long_condition b); split;
    (intros [? ?] || intro); try discriminate; auto.
Qed.

Lemma long_condition_nine (b : Bar) :
  long_condition b = true <->
  (Lips b >? Teeth b) = true /\ (Teeth b >? Jaw b) = true
  /\ (Close b >? Lips b) = true /\ (ADX b >? Fin 30) = true
  /\ (CMO b >? Fin 40) = true /\ (Stoch_RSI b >? Fin 60) = true
  /\ (Volume_Change b >? Fin 0) = true /\ (Close b >? EMA_50 b) = true
  /\ (MACD b >? MACD_signal b) = true.
Proof. unfold long_condition. rewrite !andb_true_iff. tauto. Qed.

Lemma short_condition_nine (b : Bar) :
  short_condition b = true <->
  (Lips b <? Teeth b) = true /\ (Teeth b <? Jaw b) = true
  /\ (Close b <? Lips b) = true /\ (ADX b >? Fin 30) = true
  /\ (CMO b <? Fin (-40)) = true /\ (Stoch_RSI b <? Fin 40) = true
  /\ (Volume_Change b <? Fin 0) = true /\ (Close b <? EMA_50 b) = true
  /\ (MACD b <? MACD_signal b) = true.
Proof. unfold short_condition. rewrite !andb_true_iff. tauto. Qed.

(** C4: row by row, [generate_signals] leaves every column but [Signal]
    as it was and sets [Signal] to 1 exactly when the nine long conditions
    hold, to -1 exactly when the nine short conditions hold, and to 0
    otherwise; the two sets of conditions never hold together; and the
    short write comes after the long one, so that for any pair of masks a
    row selected by the short mask ends at -1. *)
Theorem generate_signals_spec (data : DataFrame) (i : nat) (b : Bar) :
  nth_error data i = Some b ->
  let long :=
    (Lips b >? Teeth b) = true /\ (Teeth b >? Jaw b) = true
    /\ (Close b >? Lips b) = true /\ (ADX b >? Fin 30) = true
    /\ (CMO b >? Fin 40) = true /\ (Stoch_RSI b >? Fin 60) = true
    /\ (Volume_Change b >? Fin 0) = true /\ (Close b >? EMA_50 b) = true
    /\ (MACD b >? MACD_signal b) = true in
  let short :=
    (Lips b <? Teeth b) = true /\ (Teeth b <? Jaw b) = true
    /\ (Close b <? Lips b) = true /\ (ADX b >? Fin 30) = true
    /\ (CMO b <? Fin (-40)) = true /\ (Stoch_RSI b <? Fin 40) = true
    /\ (Volume_Change b <? Fin 0) = true /\ (Close b <? EMA_50 b) = true
    /\ (MACD b <? MACD_signal b) = true in
  exists b',
    nth_error (generate_signals data) i = Some b'
    /\ b' = set_Signal (Signal b') b
    /\ (Signal b' = 1%Z <-> long)
    /\ (Signal b' = (-1)%Z <-> short)
    /\ (Signal b' = 0%Z <-> ~ long /\ ~ short)
    /\ ~ (long /\ short)
    /\ (forall l s lm,
           nth_error l i = Some lm -> nth_error s i = Some true ->
           nth_error (write_signals l s (assign_Signal 0 data)) i
           = Some (set_Signal (-1) b)).
Proof.
  intros Hb long short.
  assert (Hl : long_condition b = true <-> long)
    by apply long_condition_nine.
  assert (Hs : short_condition b = true <-> short)
    by apply short_condition_nine.
  exists (set_Signal (signal_of b) b).
  split; [now apply generate_signals_nth|].
  split; [reflexivity|]. cbn [Signal set_Signal].
  split; [now rewrite signal_of_long|].
  split; [now rewrite signal_of_short|].
  split; [|split].
  - rewrite signal_of_flat, <- Hl, <- Hs.
    destruct (long_condition b), (short_condition b); intuition congruence.
  - rewrite <- Hl, <- Hs. intros [H1 H2].
    rewrite (long_short_exclusive b H1) in H2. discriminate.
  - intros l s lm Hlm Hsm.
    rewrite (write_signals_nth l s _ i lm true (set_Signal 0 b) Hlm Hsm).
    + reflexivity.
    + unfold assign_Signal. now rewrite nth_error_map, Hb.
Qed.

End Signals.

(* ================================================================== *)
(** * The loop body, case by case *)
(* ================================================================== *)

Section TradeLists.

Lemma update_last_app (f : Trade.t -> Trade.t) (l : list Trade.t)
      (t : Trade.t) :
  update_last f (l ++ [t]) = Ok (l ++ [f t]).
Proof.
  induction l as [|a l IH]; [reflexivity|].
  cbn [app update_last]. rewrite IH.
  destruct (l ++ [t]) eqn:E; [|reflexivity].
  destruct l; discriminate.
Qed.

Lemma update_last_inv (f : Trade.t -> Trade.t) (l l' : list Trade.t) :
  update_last f l = Ok l' ->
  exists l0 t, l = l0 ++ [t] /\ l' = l0 ++ [f t].
Proof.
  induction l as [|t l _] using rev_ind; [discriminate|].
  rewrite update_last_app. intro H. inversion H. eauto.
Qed.

Lemma last_trade_app (l : list Trade.t) (t : Trade.t) :
  last_trade (l ++ [t]) = Ok t.
Proof.
  induction l as [|a l IH]; [reflexivity|].
  cbn [app last_trade]. rewrite IH.
  destruct (l ++ [t]) eqn:E; [|reflexivity].
  destruct l; discriminate.
Qed.

Lemma closed_profits_app (l l' : list Trade.t) :
  closed_profits (l ++ l') = closed_profits l ++ closed_profits l'.
Proof. apply flat_map_app. Qed.

Lemma last_bar_app (pre : DataFrame) (bar : Bar) :
  last_bar (pre ++ [bar]) = Ok bar.
Proof. unfold last_bar. now rewrite rev_unit. Qed.

End TradeLists.


Section BacktestFacts.

Variable symbol : string.
Variables initial_capital risk_per_trade : num.

Local Abbreviation step := (step symbol initial_capital risk_per_trade).
Local Abbreviation loop := (loop symbol initial_capital risk_per_trade).
Local Abbreviation forced_closure := (forced_closure symbol).
Local Abbreviation backtest_run :=
  (backtest_run symbol initial_capital risk_per_trade).
Local Abbreviation backtest_strategy :=
  (backtest_strategy symbol initial_capital risk_per_trade).
Local Abbreviation long_size := (long_size initial_capital risk_per_trade).
Local Abbreviation short_size := (short_size initial_capital risk_per_trade).
Local Abbreviation opened := (opened symbol).
Local Abbreviation Outcome := (Outcome symbol initial_capital risk_per_trade).
Local Abbreviation sized_entry := (sized_entry initial_capital risk_per_trade).
Local Abbreviation sized_entries :=
  (sized_entries initial_capital risk_per_trade).
Local Abbreviation ledger_inv := (ledger_inv initial_capital).
Local Abbreviation long_held :=
  (long_held symbol initial_capital risk_per_trade).
Local Abbreviation short_held :=
  (short_held symbol initial_capital risk_per_trade).

(** The loop body written with the named sub-expressions. *)
Lemma step_unfold (st : State) (bar : Bar) :
  step st bar =
  if (Signal bar =? 1)%Z && (position st ==? zero) then
    Ok {| position := long_size bar; portfolio := portfolio st;
          trades := trades st ++ [opened bar Long];
          entry_price := Close bar; trailing_stop := Close bar - ATR bar;
          world := record_trade (world st) (index bar) symbol Long
                                (Close bar) None None Open |}
  else if (Signal bar =? -1)%Z && (position st ==? zero) then
    Ok {| position := short_size bar; portfolio := portfolio st;
          trades := trades st ++ [opened bar Short];
          entry_price := Close bar; trailing_stop := Close bar + ATR bar;
          world := record_trade (world st) (index bar) symbol Short
                                (Close bar) None None Open |}
  else if position st !=? zero then
    if long_exit st bar then
      let profit := (Close bar - entry_price st) * position st in
      trades' <- update_last (close_trade (Close bar) profit) (trades st) ;;
      Ok {| position := zero; portfolio := portfolio st + profit;
            trades := trades'; entry_price := entry_price st;
            trailing_stop := ratchet st bar;
            world := record_trade (world st) (index bar) symbol Long
                                  (entry_price st) (Some (Close bar))
                                  (Some profit) Closed |}
    else if short_exit st bar then
      let profit := (entry_price st - Close bar) * Num.abs (position st) in
      trades' <- update_last (close_trade (Close bar) profit) (trades st) ;;
      Ok {| position := zero; portfolio := portfolio st + profit;
            trades := trades'; entry_price := entry_price st;
            trailing_stop := ratchet st bar;
            world := record_trade (world st) (index bar) symbol Short
                                  (entry_price st) (Some (Close bar))
                                  (Some profit) Closed |}
    else
      Ok {| position := position st; portfolio := portfolio st;
            trades := trades st; entry_price := entry_price st;
            trailing_stop := ratchet st bar; world := world st |}
  else Ok st.
Proof. reflexivity. Qed.

Lemma entry_guard_false (v : Z) (st : State) (bar : Bar) :
  (Signal bar =? v)%Z && (position st ==? zero) = false ->
  (position st ==? zero) = true -> Signal bar <> v.
Proof.
  intros H Hz. rewrite Hz, andb_true_r in H. now apply Z.eqb_neq.
Qed.

Lemma long_exit_gtb (st : State) (bar : Bar) :
  long_exit st bar = true -> (position st >? zero) = true.
Proof. unfold long_exit. now intros [H _]%andb_true_iff. Qed.

Lemma short_exit_ltb (st : State) (bar : Bar) :
  short_exit st bar = true -> (position st <? zero) = true.
Proof. unfold short_exit. now intros [H _]%andb_true_iff. Qed.

Theorem step_outcome (st : State) (bar : Bar) (st' : State) :
  step st bar = Ok st' -> Outcome st bar st'.
Proof.
  rewrite step_unfold.
  destruct ((Signal bar =? 1)%Z && (position st ==? zero)) eqn:E1.
  { apply andb_true_iff in E1 as [Es Ez]. apply Z.eqb_eq in Es.
    intro H. inversion H. now apply Entered_long. }
  destruct ((Signal bar =? -1)%Z && (position st ==? zero)) eqn:E2.
  { apply andb_true_iff in E2 as [Es Ez]. apply Z.eqb_eq in Es.
    intro H. inversion H. now apply Entered_short. }
  destruct (position st !=? zero) eqn:E3.
  - destruct (long_exit st bar) eqn:E4.
    { cbv zeta. destruct (update_last _ (trades st)) as [l'|] eqn:U;
        [|discriminate].
      apply update_last_inv in U as (l0 & t & Ht & ->).
      intro H. inversion H.
      eapply Exited_long; eauto using long_exit_gtb. }
    destruct (short_exit st bar) eqn:E5.
    { cbv zeta. destruct (update_last _ (trades st)) as [l'|] eqn:U;
        [|discriminate].
      apply update_last_inv in U as (l0 & t & Ht & ->).
      intro H. inversion H.
      eapply Exited_short; eauto using short_exit_ltb. }
    intro H. inversion H. now apply Held.
  - rewrite neqb_negb, negb_false_iff in E3.
    intro H. inversion H. subst st'.
    apply Idle; eauto using entry_guard_false.
Qed.

(** The loop body raises only if a position is open while [trades] is
    empty. *)
Lemma step_total (st : State) (bar : Bar) :
  ((position st !=? zero) = true -> exists l t, trades st = l ++ [t]) ->
  exists st', step st bar = Ok st'.
Proof.
  intro Hne. rewrite step_unfold.
  destruct (_ && _); [eauto|]. destruct (_ && _); [eauto|].
  destruct (position st !=? zero); [|eauto].
  destruct (Hne eq_refl) as (l & t & ->).
  destruct (long_exit st bar); [|destruct (short_exit st bar)];
    cbv zeta; rewrite ?update_last_app; cbn [bind]; eauto.
Qed.

(* ================================================================== *)
(** * Invariants of the loop *)
(* ================================================================== *)


Lemma closed_profits_open (l : list Trade.t) (t : Trade.t) :
  Trade.status t = Open -> closed_profits (l ++ [t]) = closed_profits l.
Proof.
  intro H. rewrite closed_profits_app. cbn. rewrite H. now rewrite !app_nil_r.
Qed.

Lemma closed_profits_close (l : list Trade.t) (t : Trade.t) (x p : num) :
  closed_profits (l ++ [close_trade x p t]) = closed_profits l ++ [p].
Proof. now rewrite closed_profits_app. Qed.

Lemma settled_close (x p : num) (t : Trade.t) : settled (close_trade x p t).
Proof. intros _. exists x, p. split; reflexivity. Qed.

Lemma settled_open (t : Trade.t) : Trade.status t = Open -> settled t.
Proof. intros H H'. congruence. Qed.

Lemma neqb_true_eqb (x y : num) : (x !=? y) = true -> (x ==? y) = false.
Proof. unfold Num.neqb. now rewrite negb_true_iff. Qed.

Lemma eqb_true_neqb (x y : num) : (x ==? y) = true -> (x !=? y) = false.
Proof. unfold Num.neqb. now intros ->. Qed.

Lemma gtb_neqb_zero (x : num) : (x >? zero) = true -> (x !=? zero) = true.
Proof. intro H. unfold Num.neqb. now rewrite (gtb_neqb _ _ H). Qed.

Lemma ltb_neqb_zero (x : num) : (x <? zero) = true -> (x !=? zero) = true.
Proof. intro H. unfold Num.neqb. now rewrite (ltb_neqb _ _ H). Qed.

Lemma initial_ledger_inv : ledger_inv (initial_state initial_capital).
Proof.
  repeat split; cbn; auto. intro H. discriminate.
Qed.

Lemma step_ledger_inv (st : State) (bar : Bar) (st' : State) :
  ledger_inv st -> step st bar = Ok st' -> ledger_inv st'.
Proof.
  intros (Hp & Ho & Hs) H.
  destruct (step_outcome _ _ _ H)
    as [Es Ez ->|Es Ez ->|l t Eg Ex Et p ->|l t Eg Ex Et p ->|En E1 E2 ->
        |Ez E1 E2 ->]; unfold ledger_inv; cbn [position portfolio trades].
  - rewrite closed_profits_open by reflexivity.
    split; [assumption|split].
    + intros _. eexists _, _. split; reflexivity.
    + apply Forall_app. split; [assumption|].
      constructor; [now apply settled_open|constructor].
  - rewrite closed_profits_open by reflexivity.
    split; [assumption|split].
    + intros _. eexists _, _. split; reflexivity.
    + apply Forall_app. split; [assumption|].
      constructor; [now apply settled_open|constructor].
  - destruct (Ho (gtb_neqb_zero _ Eg)) as (l0 & t0 & Et0 & Hopen).
    rewrite Et in Et0. apply app_inj_tail in Et0 as [-> ->].
    rewrite closed_profits_close, fold_left_app. cbn [fold_left].
    rewrite Hp, Et, closed_profits_open by assumption.
    split; [reflexivity|split].
    + intro Hc. discriminate.
    + rewrite Et in Hs. apply Forall_app in Hs as [Hs _].
      apply Forall_app. split; [assumption|].
      constructor; [apply settled_close|constructor].
  - destruct (Ho (ltb_neqb_zero _ Eg)) as (l0 & t0 & Et0 & Hopen).
    rewrite Et in Et0. apply app_inj_tail in Et0 as [-> ->].
    rewrite closed_profits_close, fold_left_app. cbn [fold_left].
    rewrite Hp, Et, closed_profits_open by assumption.
    split; [reflexivity|split].
    + intro Hc. discriminate.
    + rewrite Et in Hs. apply Forall_app in Hs as [Hs _].
      apply Forall_app. split; [assumption|].
      constructor; [apply settled_close|constructor].
  - repeat split; assumption.
  - repeat split; assumption.
Qed.

Lemma ledger_inv_nonempty (st : State) :
  ledger_inv st ->
  (position st !=? zero) = true -> exists l t, trades st = l ++ [t].
Proof. intros (_ & Ho & _) H. destruct (Ho H) as (l & t & E & _). eauto. Qed.

(** The loop never raises, and keeps the invariant. *)
Lemma loop_ledger_inv (data : DataFrame) :
  forall st, ledger_inv st ->
             exists st', loop st data = Ok st' /\ ledger_inv st'.
Proof.
  induction data as [|bar rest IH]; intros st Hinv; cbn [loop].
  - eauto.
  - destruct (step_total st bar
                (ledger_inv_nonempty st Hinv)) as [st1 H1].
    rewrite H1. cbn [bind]. apply IH. eapply step_ledger_inv; eauto.
Qed.

Lemma loop_app (pre post : DataFrame) (st : State) :
  loop st (pre ++ post) = (st1 <- loop st pre ;; loop st1 post).
Proof.
  revert st. induction pre as [|bar pre IH]; intro st; cbn; [reflexivity|].
  destruct (step st bar); cbn; auto.
Qed.

Lemma loop_one (st : State) (bar : Bar) : loop st [bar] = step st bar.
Proof. cbn. now destruct (step st bar). Qed.

Lemma loop_nil_position (data : DataFrame) (st : State) :
  loop (initial_state initial_capital) data = Ok st ->
  (position st !=? zero) = true ->
  exists pre last, data = pre ++ [last].
Proof.
  destruct data as [|b data] using rev_ind.
  - cbn. intro H. inversion H. subst. cbn. discriminate.
  - eauto.
Qed.

(** The block after the loop, when a position is open. *)
Lemma forced_closure_open (pre : DataFrame) (last : Bar) (st : State)
      (l : list Trade.t) (t : Trade.t) :
  (position st !=? zero) = true -> trades st = l ++ [t] ->
  let p := realized_profit (position st) (entry_price st) (Close last) in
  forced_closure (pre ++ [last]) st =
  Ok {| position := position st; portfolio := portfolio st + p;
        trades := l ++ [close_trade (Close last) p t];
        entry_price := entry_price st; trailing_stop := trailing_stop st;
        world :=
          record_trade
            {| db := db (world st);
               log := (log (world st) ++ [mkLog WARNING (StillOpen t)])
                      ++ [mkLog WARNING
                                (ForcedExit (Close last) p
                                            (portfolio st + p))] |}
            (index last) symbol (Trade.direction t) (entry_price st)
            (Some (Close last)) (Some p) Closed |}.
Proof.
  intros Hne Et p. unfold forced_closure.
  rewrite Hne, Et, last_trade_app, last_bar_app. cbn [bind].
  fold (realized_profit (position st) (entry_price st) (Close last)).
  fold p. rewrite update_last_app. cbn [bind].
  rewrite last_trade_app. reflexivity.
Qed.

Lemma forced_closure_flat (data : DataFrame) (st : State) :
  (position st ==? zero) = true -> forced_closure data st = Ok st.
Proof.
  intro H. unfold forced_closure. now rewrite (eqb_true_neqb _ _ H).
Qed.

Lemma initial_closed_inv : closed_inv (initial_state initial_capital).
Proof. split; cbn; auto. discriminate. Qed.

Lemma step_closed_inv (st : State) (bar : Bar) (st' : State) :
  sized_entry bar = true ->
  closed_inv st -> step st bar = Ok st' -> closed_inv st'.
Proof.
  intros Hsz (Hz & Hnz) H. unfold sized_entry in Hsz.
  apply andb_true_iff in Hsz as [Hl Hsh].
  destruct (step_outcome _ _ _ H)
    as [Es Ez ->|Es Ez ->|l t Eg Ex Et p ->|l t Eg Ex Et p ->|En E1 E2 ->
        |Ez E1 E2 ->]; unfold closed_inv; cbn [position portfolio trades].
  - rewrite Es in Hl. cbn in Hl. split.
    + intro Hc. rewrite (eqb_true_neqb _ _ Hc) in Hl. discriminate.
    + intros _. eexists _, _. repeat split; auto.
  - rewrite Es in Hsh. cbn in Hsh. split.
    + intro Hc. rewrite (eqb_true_neqb _ _ Hc) in Hsh. discriminate.
    + intros _. eexists _, _. repeat split; auto.
  - destruct (Hnz (gtb_neqb_zero _ Eg)) as (l0 & t0 & Et0 & Hl0 & Hopen).
    rewrite Et in Et0. apply app_inj_tail in Et0 as [-> ->].
    split; [|discriminate].
    intros _. rewrite forallb_app, Hl0. reflexivity.
  - destruct (Hnz (ltb_neqb_zero _ Eg)) as (l0 & t0 & Et0 & Hl0 & Hopen).
    rewrite Et in Et0. apply app_inj_tail in Et0 as [-> ->].
    split; [|discriminate].
    intros _. rewrite forallb_app, Hl0. reflexivity.
  - split; assumption.
  - split; assumption.
Qed.

Lemma loop_closed_inv (data : DataFrame) :
  forall st st',
    sized_entries data = true -> closed_inv st ->
    loop st data = Ok st' -> closed_inv st'.
Proof.
  induction data as [|bar rest IH]; intros st st' Hsz Hinv; cbn.
  - intro H. now inversion H; subst.
  - cbn in Hsz. apply andb_true_iff in Hsz as [Hb Hrest].
    destruct (step st bar) as [st1|] eqn:E1; cbn; [|discriminate].
    apply IH; eauto using step_closed_inv.
Qed.

(* ================================================================== *)
(** * The run as a whole *)
(* ================================================================== *)

(** The function always returns, and its result satisfies the ledger
    equation. *)
Lemma backtest_run_inv (data : DataFrame) :
  exists st_loop st,
    loop (initial_state initial_capital) data = Ok st_loop
    /\ ledger_inv st_loop
    /\ forced_closure data st_loop = Ok st
    /\ backtest_run data = Ok st
    /\ portfolio st = fold_left Num.add (closed_profits (trades st))
                                initial_capital
    /\ Forall settled (trades st).
Proof.
  destruct (loop_ledger_inv data _ initial_ledger_inv)
    as (st & Hloop & Hinv).
  exists st. unfold backtest_run. rewrite Hloop. cbn [bind].
  destruct (position st !=? zero) eqn:E.
  - destruct Hinv as (Hp & Ho & Hs).
    destruct (Ho E) as (l & t & Et & Hopen).
    destruct (loop_nil_position _ _ Hloop E) as (pre & last & ->).
    eexists. rewrite (forced_closure_open pre last st l t E Et).
    repeat split; auto; cbn [portfolio trades].
    + rewrite closed_profits_close, fold_left_app. cbn [fold_left].
      now rewrite Hp, Et, closed_profits_open.
    + rewrite Et in Hs. apply Forall_app in Hs as [Hs _].
      apply Forall_app. split; [assumption|].
      constructor; [apply settled_close|constructor].
  - exists st. unfold forced_closure. rewrite E.
    destruct Hinv as (Hp & Ho & Hs). repeat split; auto.
Qed.

Lemma step_portfolio (st : State) (bar : Bar) (st' : State) :
  step st bar = Ok st' ->
  portfolio st' = portfolio st
  \/ ((position st !=? zero) = true /\ position st' = zero
      /\ portfolio st' =
         portfolio st
         + realized_profit (position st) (entry_price st) (Close bar)
      /\ exists l t,
           trades st = l ++ [t]
           /\ trades st' =
              l ++ [close_trade (Close bar)
                      (realized_profit (position st) (entry_price st)
                                       (Close bar)) t]).
Proof.
  intro H.
  destruct (step_outcome _ _ _ H)
    as [Es Ez ->|Es Ez ->|l t Eg Ex Et p ->|l t Eg Ex Et p ->|En E1 E2 ->
        |Ez E1 E2 ->]; cbn [position portfolio trades]; auto; right.
  - unfold realized_profit. rewrite Eg.
    repeat split; eauto using gtb_neqb_zero.
  - unfold realized_profit, Num.gtb. rewrite (ltb_asym _ _ Eg).
    repeat split; eauto using ltb_neqb_zero.
Qed.

(** C1: the portfolio value returned by [backtest_strategy] is
    [initial_capital] plus the profits of the Closed trades of the returned
    list, added one after the other in list order, which is the order in
    which [portfolio += profit] added them; every Closed trade carries a
    profit; one pass through the loop body leaves [portfolio] untouched
    unless it closes the open trade, in which case the trade's profit is
    added, and the block after the loop changes it only by the profit of
    the forced closure. *)
Theorem conservation_law (data : DataFrame) :
  (exists trades pf,
      backtest_strategy data = Ok (trades, pf)
      /\ pf = fold_left Num.add (closed_profits trades) initial_capital
      /\ Forall settled trades)
  /\ (forall st bar st',
         step st bar = Ok st' ->
         portfolio st' = portfolio st
         \/ exists l t p,
             trades st = l ++ [t]
             /\ trades st' = l ++ [close_trade (Close bar) p t]
             /\ portfolio st' = portfolio st + p)
  /\ (forall st st',
         forced_closure data st = Ok st' ->
         st' = st
         \/ exists l t x p,
             trades st = l ++ [t]
             /\ trades st' = l ++ [close_trade x p t]
             /\ portfolio st' = portfolio st + p).
Proof.
  split; [|split].
  - destruct (backtest_run_inv data) as (s0 & st & _ & _ & _ & Hrun & Hp & Hs).
    exists (trades st), (portfolio st). unfold backtest_strategy.
    rewrite Hrun. cbn [bind].
    repeat split; auto.
  - intros st bar st' H.
    destruct (step_portfolio st bar st' H)
      as [E|(_ & _ & Ep & l & t & Et & Et')]; [now left|right].
    eauto 6.
  - intros st st'. unfold forced_closure.
    destruct (position st !=? zero); [|intro H; inversion H; now left].
    destruct (last_trade (trades st)); [|discriminate]. cbn [bind].
    destruct (last_bar data) as [last|]; [|discriminate]. cbn [bind].
    destruct (update_last _ (trades st)) as [l'|] eqn:U; [|discriminate].
    cbn [bind]. apply update_last_inv in U as (l0 & t & Et & ->).
    destruct (last_trade _); [|discriminate]. cbn [bind].
    intro H. inversion H. right.
    eexists l0, t, _, _. repeat split; eauto.
Qed.

(* ================================================================== *)
(** * Forced closure *)
(* ================================================================== *)

(** A normal exit realises [realized_profit], the formula of the forced
    closure. *)
Lemma exit_profit (st : State) (bar : Bar) (st' : State) :
  step st bar = Ok st' ->
  (position st !=? zero) = true -> (position st' ==? zero) = true ->
  portfolio st' =
  portfolio st + realized_profit (position st) (entry_price st) (Close bar).
Proof.
  intros H Hn Hz.
  destruct (step_portfolio st bar st' H) as [E|(_ & _ & Ep & _)];
    [|assumption].
  destruct (step_outcome _ _ _ H)
    as [Es Ez ->|Es Ez ->|l t Eg Ex Et p ->|l t Eg Ex Et p ->|En E1 E2 ->
        |Ez E1 E2 ->]; cbn [position portfolio] in *;
    try (rewrite (eqb_true_neqb _ _ Ez) in Hn; discriminate).
  - unfold realized_profit. now rewrite Eg.
  - unfold realized_profit, Num.gtb. now rewrite (ltb_asym _ _ Eg).
  - rewrite (neqb_true_eqb _ _ Hn) in Hz. discriminate.
Qed.

(** C2, as the code has it: when every entry signal of the frame gets a
    non-zero size, [backtest_strategy] returns and every trade of the
    returned list is Closed; a position still open after the last bar is
    closed at the last bar's close with the profit formula of a normal exit,
    the profit being added to the portfolio and written into the open
    trade; the forced closure leaves the variable [position] as it is. *)
Theorem sized_run_ends_closed (data : DataFrame) :
  sized_entries data = true ->
  exists st_loop st,
    loop (initial_state initial_capital) data = Ok st_loop
    /\ backtest_run data = Ok st
    /\ backtest_strategy data = Ok (trades st, portfolio st)
    /\ forallb is_closed (trades st) = true
    /\ position st = position st_loop
    /\ (if position st_loop !=? zero then
          exists pre last l t,
            data = pre ++ [last] /\ trades st_loop = l ++ [t]
            /\ Trade.status t = Open
            /\ let p := realized_profit (position st_loop)
                                        (entry_price st_loop) (Close last) in
               trades st = l ++ [close_trade (Close last) p t]
               /\ portfolio st = portfolio st_loop + p
        else st = st_loop)
    /\ (forall s bar s',
           step s bar = Ok s' ->
           (position s !=? zero) = true -> (position s' ==? zero) = true ->
           portfolio s' =
           portfolio s
           + realized_profit (position s) (entry_price s) (Close bar)).
Proof.
  intro Hsz.
  destruct (backtest_run_inv data)
    as (s0 & st & Hloop & Hinv & Hfc & Hrun & _ & _).
  pose proof (loop_closed_inv data _ _ Hsz initial_closed_inv Hloop)
    as (Hz & Hnz).
  exists s0, st. unfold backtest_strategy. rewrite Hrun. cbn [bind].
  destruct (position s0 !=? zero) eqn:E.
  - destruct (Hnz eq_refl) as (l & t & Et & Hl & Hopen).
    destruct (loop_nil_position _ _ Hloop E) as (pre & last & ->).
    rewrite (forced_closure_open pre last s0 l t E Et) in Hfc.
    inversion Hfc. cbn [position portfolio trades].
    repeat split; auto using exit_profit.
    + rewrite forallb_app, Hl. reflexivity.
    + exists pre, last, l, t. repeat split; auto.
  - rewrite neqb_negb, negb_false_iff in E.
    rewrite (forced_closure_flat data s0 E) in Hfc. inversion Hfc. subst st.
    repeat split; auto using exit_profit.
Qed.

(* ================================================================== *)
(** * Risk levels and the exit test *)
(* ================================================================== *)

Lemma nonempty_snoc (l : list Trade.t) :
  l <> [] -> exists l0 t, l = l0 ++ [t].
Proof.
  destruct l as [|t l] using rev_ind; [congruence|eauto].
Qed.

Lemma stop_take_cases (bar : Bar) :
  let vf := ATR bar / Close bar in
  ((vf <? Fin 0.01) = true ->
   stop_loss bar = ATR bar * Fin 2 /\ take_profit bar = ATR bar * Fin 4)
  /\ ((vf <? Fin 0.01) = false -> (vf >? Fin 0.02) = true ->
      stop_loss bar = ATR bar * Fin 1.5 /\ take_profit bar = ATR bar * Fin 3)
  /\ ((vf <? Fin 0.01) = false -> (vf >? Fin 0.02) = false ->
      stop_loss bar = ATR bar * Fin 1.75
      /\ take_profit bar = ATR bar * Fin 3.5).
Proof.
  unfold stop_loss, take_profit, volatility_factor. cbv zeta.
  repeat split; intros; repeat match goal with H : _ = _ |- _ =>
                                 rewrite H end; reflexivity.
Qed.

Lemma boundary_is_mid (x : num) :
  x =~ Fin 0.01 \/ x =~ Fin 0.02 ->
  (x <? Fin 0.01) = false /\ (x >? Fin 0.02) = false.
Proof.
  unfold Num.gtb. destruct x as [a| | |]; cbn; try tauto.
  intros [H|H]; rewrite !negb_false_iff, !Qle_bool_iff, H; split;
    apply Qle_bool_iff; reflexivity.
Qed.

Lemma ratchet_long (st : State) (bar : Bar) :
  (position st >? zero) = true ->
  ratchet st bar =
  if Close bar >? entry_price st + ATR bar
  then Num.max (trailing_stop st) (Close bar - ATR bar * Fin 1.5)
  else trailing_stop st.
Proof.
  intro H. unfold ratchet. rewrite H. cbn [andb].
  destruct (Close bar >? _); [reflexivity|].
  unfold Num.gtb in H. now rewrite (ltb_asym _ _ H).
Qed.

Lemma ratchet_short (st : State) (bar : Bar) :
  (position st <? zero) = true ->
  ratchet st bar =
  if Close bar <? entry_price st - ATR bar
  then Num.min (trailing_stop st) (Close bar + ATR bar * Fin 1.5)
  else trailing_stop st.
Proof.
  intro H. unfold ratchet, Num.gtb. rewrite (ltb_asym _ _ H), H.
  reflexivity.
Qed.

(** What one bar does to a long position. *)
Lemma step_long (st : State) (bar : Bar) (st' : State) :
  step st bar = Ok st' -> (position st >? zero) = true ->
  trailing_stop st' = ratchet st bar
  /\ (position st' ==? zero)
     = ((Close bar >=? entry_price st + take_profit bar)
        || (Close bar <=? trailing_stop st'))
  /\ (position st' = zero \/ position st' = position st).
Proof.
  intros H Hg.
  destruct (step_outcome _ _ _ H)
    as [Es Ez ->|Es Ez ->|l t Eg Ex Et p ->|l t Eg Ex Et p ->|En E1 E2 ->
        |Ez E1 E2 ->]; cbn [position trailing_stop];
    try (rewrite (gtb_neqb _ _ Hg) in Ez; discriminate).
  - unfold long_exit in Ex. rewrite Hg in Ex. cbn [andb] in Ex.
    rewrite Ex. auto.
  - unfold Num.gtb in Hg. rewrite (ltb_asym _ _ Hg) in Eg. discriminate.
  - unfold long_exit in E1. rewrite Hg in E1. cbn [andb] in E1.
    rewrite E1, (gtb_neqb _ _ Hg). auto.
Qed.

(** What one bar does to a short position. *)
Lemma step_short (st : State) (bar : Bar) (st' : State) :
  step st bar = Ok st' -> (position st <? zero) = true ->
  trailing_stop st' = ratchet st bar
  /\ (position st' ==? zero)
     = ((Close bar <=? entry_price st - take_profit bar)
        || (Close bar >=? trailing_stop st'))
  /\ (position st' = zero \/ position st' = position st).
Proof.
  intros H Hl.
  destruct (step_outcome _ _ _ H)
    as [Es Ez ->|Es Ez ->|l t Eg Ex Et p ->|l t Eg Ex Et p ->|En E1 E2 ->
        |Ez E1 E2 ->]; cbn [position trailing_stop];
    try (rewrite (ltb_neqb _ _ Hl) in Ez; discriminate).
  - unfold Num.gtb in Eg. rewrite (ltb_asym _ _ Hl) in Eg. discriminate.
  - unfold short_exit in Ex. rewrite Hl in Ex. cbn [andb] in Ex.
    rewrite Ex. auto.
  - unfold short_exit in E2. rewrite Hl in E2. cbn [andb] in E2.
    rewrite E2, (ltb_neqb _ _ Hl). auto.
Qed.

(** C6: on every bar the stop-loss and take-profit distances are computed
    from that bar's ATR and close alone: with [vf = ATR / Close], below 0.01
    they are ATR x 2 and ATR x 4, else above 0.02 they are ATR x 1.5 and
    ATR x 3, and otherwise (0.01 and 0.02 included) ATR x 1.75 and ATR x 3.5;
    a pass of the loop for the bar with a position open returns (in a run
    it always does: the open trade is in the list), and it closes the
    position exactly when the close passes the entry price by this bar's
    take-profit distance, or reaches the trailing stop as ratcheted on
    this bar; the position is otherwise left as it was. *)
Theorem risk_levels_per_bar (bar : Bar) :
  let vf := ATR bar / Close bar in
  volatility_factor bar = vf
  /\ ((vf <? Fin 0.01) = true ->
      stop_loss bar = ATR bar * Fin 2 /\ take_profit bar = ATR bar * Fin 4)
  /\ ((vf <? Fin 0.01) = false -> (vf >? Fin 0.02) = true ->
      stop_loss bar = ATR bar * Fin 1.5 /\ take_profit bar = ATR bar * Fin 3)
  /\ ((vf <? Fin 0.01) = false -> (vf >? Fin 0.02) = false ->
      stop_loss bar = ATR bar * Fin 1.75
      /\ take_profit bar = ATR bar * Fin 3.5)
  /\ (vf =~ Fin 0.01 \/ vf =~ Fin 0.02 ->
      stop_loss bar = ATR bar * Fin 1.75
      /\ take_profit bar = ATR bar * Fin 3.5)
  /\ (forall st,
         (position st >? zero) = true ->
         (trades st <> [] -> exists st', step st bar = Ok st')
         /\ forall st',
             step st bar = Ok st' ->
             trailing_stop st' = ratchet st bar
             /\ (position st' ==? zero)
                = ((Close bar >=? entry_price st + take_profit bar)
                   || (Close bar <=? trailing_stop st'))
             /\ (position st' = zero \/ position st' = position st))
  /\ (forall st,
         (position st <? zero) = true ->
         (trades st <> [] -> exists st', step st bar = Ok st')
         /\ forall st',
             step st bar = Ok st' ->
             trailing_stop st' = ratchet st bar
             /\ (position st' ==? zero)
                = ((Close bar <=? entry_price st - take_profit bar)
                   || (Close bar >=? trailing_stop st'))
             /\ (position st' = zero \/ position st' = position st))
  /\ (forall pre,
         exists st st',
           loop (initial_state initial_capital) pre = Ok st
           /\ step st bar = Ok st'
           /\ loop (initial_state initial_capital) (pre ++ [bar]) = Ok st').
Proof.
  intro vf.
  destruct (stop_take_cases bar) as (Hlow & Hhigh & Hmid).
  split; [reflexivity|].
  split; [exact Hlow|]. split; [exact Hhigh|]. split; [exact Hmid|].
  split; [|split; [|split]].
  - intro Hb. destruct (boundary_is_mid vf Hb). now apply Hmid.
  - intros st Hg. split.
    + intro Hne. apply step_total. intros _. now apply nonempty_snoc.
    + intros st' H. exact (step_long st bar st' H Hg).
  - intros st Hl. split.
    + intro Hne. apply step_total. intros _. now apply nonempty_snoc.
    + intros st' H. exact (step_short st bar st' H Hl).
  - intro pre.
    destruct (loop_ledger_inv pre _ initial_ledger_inv) as (st & Hloop & Hinv).
    destruct (step_total st bar (ledger_inv_nonempty st Hinv)) as [st' H].
    exists st, st'. split; [exact Hloop|]. split; [exact H|].
    rewrite loop_app, Hloop. cbn [bind]. now rewrite loop_one.
Qed.

(* ================================================================== *)
(** * The trailing stop *)
(* ================================================================== *)

Lemma raised_refl (x : num) : raised x x.
Proof. now left. Qed.

Lemma raised_trans (x y z : num) : raised x y -> raised y z -> raised x z.
Proof.
  intros [->|H1] [->|H2]; unfold raised; eauto using ltb_trans.
Qed.

Lemma lowered_trans (x y z : num) :
  lowered x y -> lowered y z -> lowered x z.
Proof.
  intros [->|H1] [->|H2]; unfold lowered; eauto using ltb_trans.
Qed.

Lemma raised_max (a b : num) : raised a (Num.max a b).
Proof.
  unfold raised, Num.max, Num.gtb. destruct (a <? b) eqn:E; auto.
Qed.

Lemma lowered_min (a b : num) : lowered a (Num.min a b).
Proof.
  unfold lowered, Num.min. destruct (b <? a) eqn:E; auto.
Qed.

Lemma raised_leb (x y : num) : raised x y -> x <> NaN -> (x <=? y) = true.
Proof. intros [->|H] Hn; auto using leb_refl, ltb_leb. Qed.

Lemma lowered_leb (x y : num) : lowered x y -> x <> NaN -> (y <=? x) = true.
Proof. intros [->|H] Hn; auto using leb_refl, ltb_leb. Qed.

Lemma ratchet_raised (st : State) (bar : Bar) :
  (position st >? zero) = true -> raised (trailing_stop st) (ratchet st bar).
Proof.
  intro H. rewrite (ratchet_long st bar H).
  destruct (Close bar >? _); [apply raised_max|apply raised_refl].
Qed.

Lemma ratchet_lowered (st : State) (bar : Bar) :
  (position st <? zero) = true -> lowered (trailing_stop st) (ratchet st bar).
Proof.
  intro H. rewrite (ratchet_short st bar H).
  destruct (Close bar <? _); [apply lowered_min|now left].
Qed.

Lemma long_held_raised (bars : DataFrame) :
  forall st st',
    long_held st bars -> loop st bars = Ok st' ->
    raised (trailing_stop st) (trailing_stop st').
Proof.
  induction bars as [|bar rest IH]; intros st st'; cbn.
  - intros _ H. inversion H. apply raised_refl.
  - intros [Hg Hrest]. destruct (step st bar) as [st1|] eqn:E1; [|tauto].
    cbn [bind]. intro Hloop.
    destruct (step_long st bar st1 E1 Hg) as (Ets & _).
    eapply raised_trans; [|eapply IH; eauto].
    rewrite Ets. now apply ratchet_raised.
Qed.

Lemma short_held_lowered (bars : DataFrame) :
  forall st st',
    short_held st bars -> loop st bars = Ok st' ->
    lowered (trailing_stop st) (trailing_stop st').
Proof.
  induction bars as [|bar rest IH]; intros st st'; cbn.
  - intros _ H. inversion H. now left.
  - intros [Hl Hrest]. destruct (step st bar) as [st1|] eqn:E1; [|tauto].
    cbn [bind]. intro Hloop.
    destruct (step_short st bar st1 E1 Hl) as (Ets & _).
    eapply lowered_trans; [|eapply IH; eauto].
    rewrite Ets. now apply ratchet_lowered.
Qed.

(** C7: over the bars processed while a long position is open, the
    trailing stop never goes down: on each such bar it becomes
    [max(trailing_stop, close - 1.5 x ATR)] when [close > entry_price + ATR]
    and is left alone otherwise, so along the whole life of the trade it is
    unchanged or raised; for a short position it is
    [min(trailing_stop, close + 1.5 x ATR)] when [close < entry_price - ATR],
    and it never goes up. *)
Theorem trailing_stop_monotone (st : State) (bars : DataFrame) (st' : State) :
  loop st bars = Ok st' ->
  (long_held st bars ->
   raised (trailing_stop st) (trailing_stop st')
   /\ (trailing_stop st <> NaN ->
       (trailing_stop st <=? trailing_stop st') = true)
   /\ forall bar, bars = [bar] ->
        trailing_stop st' =
        if Close bar >? entry_price st + ATR bar
        then Num.max (trailing_stop st) (Close bar - ATR bar * Fin 1.5)
        else trailing_stop st)
  /\ (short_held st bars ->
      lowered (trailing_stop st) (trailing_stop st')
      /\ (trailing_stop st <> NaN ->
          (trailing_stop st' <=? trailing_stop st) = true)
      /\ forall bar, bars = [bar] ->
           trailing_stop st' =
           if Close bar <? entry_price st - ATR bar
           then Num.min (trailing_stop st) (Close bar + ATR bar * Fin 1.5)
           else trailing_stop st).
Proof.
  intro Hloop. split; intro Hheld.
  - pose proof (long_held_raised bars st st' Hheld Hloop) as Hr.
    repeat split; auto using raised_leb.
    intros bar ->. cbn in Hheld, Hloop. destruct Hheld as [Hg _].
    destruct (step st bar) as [st1|] eqn:E1; [|discriminate].
    cbn in Hloop. inversion Hloop; subst st1.
    destruct (step_long st bar st' E1 Hg) as (-> & _).
    now apply ratchet_long.
  - pose proof (short_held_lowered bars st st' Hheld Hloop) as Hr.
    repeat split; auto using lowered_leb.
    intros bar ->. cbn in Hheld, Hloop. destruct Hheld as [Hl _].
    destruct (step st bar) as [st1|] eqn:E1; [|discriminate].
    cbn in Hloop. inversion Hloop; subst st1.
    destruct (step_short st bar st' E1 Hl) as (-> & _).
    now apply ratchet_short.
Qed.

(* ================================================================== *)
(** * Entries *)
(* ================================================================== *)

Lemma clamp_is_finite (x : num) :
  exists k, Num.max (Fin 0.5) (Num.min (Fin 1.5) x) = Fin k
            /\ (0.5 <= k <= 1.5)%Q.
Proof.
  destruct x as [a| | |];
    try (eexists; split; [reflexivity|lra]).
  rewrite clamp_finite. eexists; split; [reflexivity|].
  destruct (Qle_bool a 0.5) eqn:E1; [lra|].
  destruct (Qle_bool 1.5 a) eqn:E2; [lra|].
  apply Qle_bool_false in E1, E2. lra.
Qed.

Lemma Qpos_b_opp (a : Q) : ~ (a == 0)%Q -> Qpos_b (- a) = negb (Qpos_b a).
Proof.
  intro H. unfold Qpos_b. rewrite negb_involutive.
  destruct (Qle_bool a 0) eqn:E1, (Qle_bool (- a) 0) eqn:E2; cbn;
    try reflexivity; exfalso;
    repeat match goal with
           | H : Qle_bool _ _ = true |- _ => apply Qle_bool_iff in H
           | H : Qle_bool _ _ = false |- _ => apply Qle_bool_false in H
           end; lra.
Qed.

Lemma Qeq_bool_opp (a : Q) : Qeq_bool (- a) 0 = Qeq_bool a 0.
Proof.
  destruct (Qeq_bool a 0) eqn:E.
  - apply Qeq_bool_iff in E. apply Qeq_bool_iff. lra.
  - apply Qeq_bool_false in E. apply Qeq_bool_false. lra.
Qed.

(** Negating the dividend negates the quotient. *)
Lemma div_neg (x y : num) : (- x) / y =~ - (x / y).
Proof.
  destruct x as [a| | |], y as [b| | |]; cbn; auto; try reflexivity.
  - rewrite Qeq_bool_opp.
    destruct (Qeq_bool b 0) eqn:Eb.
    + destruct (Qeq_bool a 0) eqn:Ea; cbn; auto.
      apply Qeq_bool_false in Ea. rewrite (Qpos_b_opp a Ea).
      destruct (Qpos_b a); cbn; auto.
    + cbn. apply Qeq_bool_false in Eb. now field.
  - destruct (Qneg_b b); cbn; auto.
  - destruct (Qneg_b b); cbn; auto.
Qed.

Lemma step_entry_long (st : State) (bar : Bar) :
  (position st ==? zero) = true -> Signal bar = 1%Z ->
  step st bar =
  Ok {| position := long_size bar; portfolio := portfolio st;
        trades := trades st ++ [opened bar Long];
        entry_price := Close bar; trailing_stop := Close bar - ATR bar;
        world := record_trade (world st) (index bar) symbol Long
                              (Close bar) None None Open |}.
Proof. intros Hz Hs. rewrite step_unfold, Hs, Hz. reflexivity. Qed.

Lemma step_entry_short (st : State) (bar : Bar) :
  (position st ==? zero) = true -> Signal bar = (-1)%Z ->
  step st bar =
  Ok {| position := short_size bar; portfolio := portfolio st;
        trades := trades st ++ [opened bar Short];
        entry_price := Close bar; trailing_stop := Close bar + ATR bar;
        world := record_trade (world st) (index bar) symbol Short
                              (Close bar) None None Open |}.
Proof. intros Hz Hs. rewrite step_unfold, Hs, Hz. reflexivity. Qed.

(** C5, as the code has it: on a bar with an entry signal processed while
    flat, the size factor is [max(0.5, min(1.5, 0.02 / (ATR / close)))] and
    lies in [0.5, 1.5]; a long entry sets the position to
    [(initial_capital x risk_per_trade x factor) / stop_loss], where the
    capital is the [initial_capital] argument whatever the running portfolio
    is, the entry price to the bar's close and the trailing stop to
    [close - ATR]; a short entry sets the position to the negated amount
    over [stop_loss] and the trailing stop to [close + ATR]. *)
Theorem entry_sizing (st : State) (bar : Bar) :
  (position st ==? zero) = true ->
  Signal bar = 1%Z \/ Signal bar = (-1)%Z ->
  let factor :=
    Num.max (Fin 0.5)
            (Num.min (Fin 1.5) (Fin 0.02 / (ATR bar / Close bar))) in
  let size := (initial_capital * risk_per_trade * factor) / stop_loss bar in
  (Fin 0.5 <=? factor) = true /\ (factor <=? Fin 1.5) = true
  /\ exists st',
      step st bar = Ok st'
      /\ entry_price st' = Close bar
      /\ portfolio st' = portfolio st
      /\ (Signal bar = 1%Z ->
          position st' = size
          /\ trailing_stop st' = Close bar - ATR bar
          /\ trades st' =
             trades st
             ++ [Trade.mk (index bar) symbol Long (Close bar) None None Open])
      /\ (Signal bar = (-1)%Z ->
          position st' =
          (- (initial_capital * risk_per_trade * factor)) / stop_loss bar
          /\ position st' =~ - size
          /\ trailing_stop st' = Close bar + ATR bar
          /\ trades st' =
             trades st
             ++ [Trade.mk (index bar) symbol Short (Close bar) None None
                          Open]).
Proof.
  intros Hz Hs factor size.
  destruct (clamp_range (Fin 0.02 / (ATR bar / Close bar))) as [Hlo Hhi].
  split; [exact Hlo|]. split; [exact Hhi|].
  destruct Hs as [Hs|Hs].
  - eexists. split; [apply (step_entry_long st bar Hz Hs)|].
    cbn [position portfolio trades entry_price trailing_stop].
    split; [reflexivity|]. split; [reflexivity|]. split.
    + intros _. repeat split.
    + intro Hs'. rewrite Hs in Hs'. discriminate.
  - eexists. split; [apply (step_entry_short st bar Hz Hs)|].
    cbn [position portfolio trades entry_price trailing_stop].
    split; [reflexivity|]. split; [reflexivity|]. split.
    + intro Hs'. rewrite Hs in Hs'. discriminate.
    + intros _. repeat split. apply div_neg.
Qed.

Lemma stop_loss_multiple (bar : Bar) :
  exists m, stop_loss bar = ATR bar * Fin m.
Proof.
  unfold stop_loss. cbv zeta.
  destruct (_ <? _); [eauto|]. destruct (_ >? _); eauto.
Qed.

(** With a zero ATR the size is a quotient by zero: an infinity. *)
Lemma zero_atr_size (bar : Bar) (a q : Q) :
  ATR bar = Fin a -> (a == 0)%Q ->
  initial_capital * risk_per_trade = Fin q -> ~ (q == 0)%Q ->
  (long_size bar = PInf \/ long_size bar = NInf)
  /\ (short_size bar = PInf \/ short_size bar = NInf).
Proof.
  intros Ha Ha0 Hq Hq0. unfold long_size, short_size.
  destruct (stop_loss_multiple bar) as [m ->].
  unfold position_size_factor.
  destruct (clamp_is_finite (Fin 0.02 / volatility_factor bar))
    as (k & -> & Hk).
  rewrite Hq, Ha. cbn.
  assert (E0 : Qeq_bool (a * m) 0 = true).
  { apply Qeq_bool_iff. rewrite Ha0. ring. }
  assert (E1 : Qeq_bool (q * k) 0 = false).
  { apply Qeq_bool_false. intro H.
    apply Qmult_integral in H as [H|H]; [contradiction|lra]. }
  rewrite E0, Qeq_bool_opp, E1.
  split; destruct (Qpos_b _); auto.
Qed.

Lemma backtest_strategy_returns (data : DataFrame) :
  exists res, backtest_strategy data = Ok res.
Proof.
  destruct (backtest_run_inv data) as (s0 & st & _ & _ & _ & Hrun & _).
  unfold backtest_strategy. rewrite Hrun. cbn [bind]. eauto.
Qed.

(** C8, as the code has it: nothing guards the sizing.  On a bar with
    [ATR <= 0] and an entry signal, processed while flat, the loop body
    divides by the stop-loss distance as on any other bar, appends the Open
    trade, writes it to the ledger and hands the logger one INFO record and
    no warning; with an ATR of zero and a non-zero
    [initial_capital x risk_per_trade] the position becomes an infinity;
    and the function returns on every frame. *)
Theorem entry_is_unguarded (st : State) (bar : Bar) :
  (ATR bar <=? zero) = true ->
  (position st ==? zero) = true ->
  Signal bar = 1%Z \/ Signal bar = (-1)%Z ->
  exists st' d,
    step st bar = Ok st'
    /\ d = (if (Signal bar =? 1)%Z then Long else Short)
    /\ position st' =
       (if (Signal bar =? 1)%Z then long_size bar else short_size bar)
    /\ trades st' =
       trades st ++ [Trade.mk (index bar) symbol d (Close bar) None None Open]
    /\ db (world st') =
       db (world st)
       ++ [Row.mk (index bar) symbol d (Close bar) None None Open]
    /\ log (world st') =
       log (world st)
       ++ [mkLog INFO (TradeExecuted d (Close bar) None None Open)]
    /\ (forall a q,
           ATR bar = Fin a -> (a == 0)%Q ->
           initial_capital * risk_per_trade = Fin q -> ~ (q == 0)%Q ->
           position st' = PInf \/ position st' = NInf)
    /\ (forall data, exists res, backtest_strategy data = Ok res).
Proof.
  intros _ Hz [Hs|Hs].
  - eexists _, Long. split; [apply (step_entry_long st bar Hz Hs)|].
    rewrite Hs. cbn [Z.eqb Pos.eqb position trades world].
    repeat split; auto using backtest_strategy_returns.
    intros a q Ha Ha0 Hq Hq0.
    apply (zero_atr_size bar a q Ha Ha0 Hq Hq0).
  - eexists _, Short. split; [apply (step_entry_short st bar Hz Hs)|].
    rewrite Hs. cbn [Z.eqb Pos.eqb position trades world].
    repeat split; auto using backtest_strategy_returns.
    intros a q Ha Ha0 Hq Hq0.
    apply (zero_atr_size bar a q Ha Ha0 Hq Hq0).
Qed.

Lemma fin_neqb_zero (q : Q) : ~ (q == 0)%Q -> (Fin q !=? zero) = true.
Proof.
  intro H. unfold Num.neqb. cbn. apply negb_true_iff.
  now apply Qeq_bool_false.
Qed.

Lemma realized_flat (q c : Q) :
  realized_profit (Fin q) (Fin c) (Fin c) =~ zero.
Proof.
  unfold realized_profit. destruct (Fin q >? zero); cbn; ring.
Qed.

Lemma add_same_zero (x p : num) : p =~ zero -> x + p =~ x.
Proof.
  intro H. eapply same_trans; [|apply add_zero_r].
  apply add_same; [apply same_refl|exact H].
Qed.

(** C10, as the code has it: when an entry signal fires on the last bar
    while flat, the bar's close is finite and the computed size is finite
    and not zero, [backtest_strategy] opens the position on that bar and the
    forced closure closes it at the same close: the trade is returned Closed
    with a profit equal to 0 and the portfolio value is the one before the
    entry. *)
Theorem last_bar_entry (pre : DataFrame) (bar : Bar) (st : State) (c q : Q) :
  loop (initial_state initial_capital) pre = Ok st ->
  (position st ==? zero) = true ->
  Close bar = Fin c ->
  (Signal bar = 1%Z /\ long_size bar = Fin q)
  \/ (Signal bar = (-1)%Z /\ short_size bar = Fin q) ->
  ~ (q == 0)%Q ->
  exists d p,
    d = (if (Signal bar =? 1)%Z then Long else Short)
    /\ backtest_strategy (pre ++ [bar]) =
       Ok (trades st
           ++ [Trade.mk (index bar) symbol d (Close bar) (Some (Close bar))
                        (Some p) Closed],
           portfolio st + p)
    /\ p =~ zero
    /\ portfolio st + p =~ portfolio st.
Proof.
  intros Hloop Hz Hc Hs Hq.
  unfold backtest_strategy, backtest_run.
  rewrite loop_app, Hloop. cbn [bind]. rewrite loop_one.
  destruct Hs as [[Hs Hsize]|[Hs Hsize]].
  - rewrite (step_entry_long st bar Hz Hs). cbn [bind].
    rewrite (forced_closure_open pre bar _ (trades st) (opened bar Long));
      cbn [position trades entry_price portfolio];
      [|rewrite Hsize; now apply fin_neqb_zero|reflexivity].
    cbn [bind trades portfolio]. unfold close_trade, opened.
    cbn [Trade.timestamp Trade.symbol Trade.direction Trade.entry_price].
    rewrite Hs, Hsize, Hc.
    eexists Long, _. split; [reflexivity|]. split; [reflexivity|].
    split; [apply realized_flat|apply add_same_zero, realized_flat].
  - rewrite (step_entry_short st bar Hz Hs). cbn [bind].
    rewrite (forced_closure_open pre bar _ (trades st) (opened bar Short));
      cbn [position trades entry_price portfolio];
      [|rewrite Hsize; now apply fin_neqb_zero|reflexivity].
    cbn [bind trades portfolio]. unfold close_trade, opened.
    cbn [Trade.timestamp Trade.symbol Trade.direction Trade.entry_price].
    rewrite Hs, Hsize, Hc.
    eexists Short, _. split; [reflexivity|]. split; [reflexivity|].
    split; [apply realized_flat|apply add_same_zero, realized_flat].
Qed.

(* ================================================================== *)
(** * Further properties of the back-test *)
(* ================================================================== *)

Lemma signal_bar_false (bar : Bar) :
  signal_bar bar = false ->
  (Signal bar =? 1)%Z = false /\ (Signal bar =? -1)%Z = false.
Proof. unfold signal_bar. now intros [H1 H2]%orb_false_iff. Qed.

Lemma step_idle (st : State) (bar : Bar) :
  (position st ==? zero) = true -> signal_bar bar = false ->
  step st bar = Ok st.
Proof.
  intros Hz [H1 H2]%signal_bar_false.
  now rewrite step_unfold, H1, H2, (eqb_true_neqb _ _ Hz).
Qed.

Lemma loop_idle (data : DataFrame) (st : State) :
  (position st ==? zero) = true -> existsb signal_bar data = false ->
  loop st data = Ok st.
Proof.
  intros Hz. induction data as [|bar rest IH]; cbn; [reflexivity|].
  intros [Hb Hrest]%orb_false_iff.
  rewrite (step_idle st bar Hz Hb). cbn [bind]. now apply IH.
Qed.

(** X1: A frame without a signal of 1 or -1 produces nothing: no trade, the
    initial capital as portfolio, no ledger row and no log record. *)
Theorem no_signal_no_trade (data : DataFrame) :
  existsb signal_bar data = false ->
  backtest_run data = Ok (initial_state initial_capital)
  /\ backtest_strategy data = Ok ([], initial_capital).
Proof.
  intro H. unfold backtest_strategy, backtest_run.
  rewrite (loop_idle data (initial_state initial_capital) eq_refl H).
  split; reflexivity.
Qed.


Lemma repeat_snoc {A : Type} (x : A) (n : nat) :
  repeat x n ++ [x] = repeat x (S n).
Proof. induction n as [|n IH]; cbn; [reflexivity|]. now rewrite IH. Qed.

Lemma length_snoc {A : Type} (l : list A) (x : A) :
  List.length (l ++ [x]) = S (List.length l).
Proof. rewrite length_app. cbn. lia. Qed.

Lemma initial_mirror_inv : mirror_inv (initial_state initial_capital).
Proof. repeat split. cbn. discriminate. Qed.

Lemma record_open_mirror (st : State) (bar : Bar) (d : Direction) (p : num)
      (ts : num) :
  (position st ==? zero) = true ->
  mirror_inv st ->
  mirror_inv
    {| position := p; portfolio := portfolio st;
       trades := trades st ++ [opened bar d];
       entry_price := Close bar; trailing_stop := ts;
       world := record_trade (world st) (index bar) symbol d (Close bar)
                             None None Open |}.
Proof.
  intros Hz (Ho & Hc & Hl & _). unfold mirror_inv.
  cbn [position trades entry_price world db log record_trade].
  rewrite !filter_app, !map_app, Ho, Hc, Hl, length_snoc. cbn.
  rewrite !app_nil_r, repeat_snoc.
  repeat split. intros _. eexists _, _. split; reflexivity.
Qed.

Lemma record_close_mirror (st : State) (bar : Bar) (d : Direction)
      (l : list Trade.t) (t : Trade.t) (p ts : num) :
  trades st = l ++ [t] -> Trade.status t = Open ->
  (position st !=? zero) = true ->
  mirror_inv st ->
  mirror_inv
    {| position := zero; portfolio := portfolio st + p;
       trades := l ++ [close_trade (Close bar) p t];
       entry_price := entry_price st; trailing_stop := ts;
       world := record_trade (world st) (index bar) symbol d
                             (entry_price st) (Some (Close bar)) (Some p)
                             Closed |}.
Proof.
  intros Et Hopen Hn (Ho & Hc & Hl & He). unfold mirror_inv.
  destruct (He Hn) as (l0 & t0 & Et0 & Hentry).
  rewrite Et in Et0. apply app_inj_tail in Et0 as [<- <-].
  assert (Hft : filter is_closed [t] = []).
  { cbn. unfold is_closed. now rewrite Hopen. }
  rewrite Et in Ho, Hc. rewrite filter_app, Hft, app_nil_r in Hc.
  cbn [position trades entry_price world db log record_trade].
  rewrite !filter_app, !map_app, Ho, Hc, Hl, length_snoc, map_app.
  cbn. rewrite app_nil_r, repeat_snoc.
  unfold stored_result, row_result. cbn. rewrite Hentry.
  repeat split. discriminate.
Qed.

Lemma step_mirror_inv (st : State) (bar : Bar) (st' : State) :
  ledger_inv st -> mirror_inv st -> step st bar = Ok st' -> mirror_inv st'.
Proof.
  intros (_ & Hlast & _) Hm H.
  destruct (step_outcome _ _ _ H)
    as [Es Ez ->|Es Ez ->|l t Eg Ex Et p ->|l t Eg Ex Et p ->|En E1 E2 ->
        |Ez E1 E2 ->]; auto using record_open_mirror.
  - pose proof (gtb_neqb_zero _ Eg) as Hn.
    destruct (Hlast Hn) as (l0 & t0 & Et0 & Hopen).
    rewrite Et in Et0. apply app_inj_tail in Et0 as [<- <-].
    now apply record_close_mirror.
  - pose proof (ltb_neqb_zero _ Eg) as Hn.
    destruct (Hlast Hn) as (l0 & t0 & Et0 & Hopen).
    rewrite Et in Et0. apply app_inj_tail in Et0 as [<- <-].
    now apply record_close_mirror.
Qed.

Lemma loop_mirror_inv (data : DataFrame) :
  forall st st',
    ledger_inv st -> mirror_inv st -> loop st data = Ok st' ->
    mirror_inv st'.
Proof.
  induction data as [|bar rest IH]; intros st st' Hi Hm; cbn.
  - intro H. now inversion H; subst.
  - destruct (step st bar) as [st1|] eqn:E1; cbn; [|discriminate].
    apply IH; eauto using step_ledger_inv, step_mirror_inv.
Qed.

Lemma filter_split_length {A : Type} (f : A -> bool) (l : list A) :
  List.length l
  = (List.length (filter f l)
     + List.length (filter (fun x => negb (f x)) l))%nat.
Proof.
  induction l as [|a l IH]; cbn; [reflexivity|].
  destruct (f a); cbn; lia.
Qed.

(** Appending the Closed row of the last trade keeps rows and trades in
    step. *)
Lemma mirror_close (rows : list Row.t) (l : list Trade.t) (t : Trade.t)
      (i : Z) (d : Direction) (x p : num) :
  Trade.status t = Open ->
  filter row_open rows = map open_row (l ++ [t]) ->
  map row_result (filter (fun r => negb (row_open r)) rows)
  = map stored_result (filter is_closed (l ++ [t])) ->
  let rows' :=
    rows ++ [Row.mk i symbol d (Trade.entry_price t) (or_None (Some x))
                    (or_None (Some p)) Closed] in
  filter row_open rows' = map open_row (l ++ [close_trade x p t])
  /\ map row_result (filter (fun r => negb (row_open r)) rows')
     = map stored_result (filter is_closed (l ++ [close_trade x p t])).
Proof.
  intros Hopen Ho Hc rows'. unfold rows'.
  assert (Hft : filter is_closed [t] = []).
  { cbn. unfold is_closed. now rewrite Hopen. }
  rewrite filter_app, Hft, app_nil_r in Hc.
  rewrite !filter_app, !map_app, Ho, Hc, map_app. cbn.
  rewrite app_nil_r. split; reflexivity.
Qed.

(** X10: Write-through.  The rows of a run's ledger mirror the returned trades:
    the Open rows are the trades as they were opened, in order; the Closed
    rows carry, in order, the entry price, exit price and profit of the
    Closed trades, a value of 0 being stored as 'None'; so the ledger has
    one row per trade and one more per Closed trade. *)
Theorem ledger_mirrors_trades (data : DataFrame) (st : State) :
  backtest_run data = Ok st ->
  filter row_open (db (world st)) = map open_row (trades st)
  /\ map row_result (filter (fun r => negb (row_open r)) (db (world st)))
     = map stored_result (filter is_closed (trades st))
  /\ List.length (db (world st))
     = (List.length (trades st)
        + List.length (filter is_closed (trades st)))%nat.
Proof.
  intro Hrun.
  destruct (backtest_run_inv data)
    as (s0 & st1 & Hloop & Hinv & Hfc & Hrun' & _).
  rewrite Hrun in Hrun'. inversion Hrun'; subst st1. clear Hrun'.
  pose proof (loop_mirror_inv data _ _ initial_ledger_inv initial_mirror_inv
                Hloop) as (Ho & Hc & _ & He).
  assert (H2 : filter row_open (db (world st)) = map open_row (trades st)
               /\ map row_result
                      (filter (fun r => negb (row_open r)) (db (world st)))
                  = map stored_result (filter is_closed (trades st))).
  { destruct (position s0 !=? zero) eqn:E.
    - destruct Hinv as (_ & Hlast & _).
      destruct (Hlast E) as (l & t & Et & Hopen).
      destruct (He eq_refl) as (l0 & t0 & Et0 & Hentry).
      rewrite Et in Et0. apply app_inj_tail in Et0 as [<- <-].
      destruct (loop_nil_position _ _ Hloop E) as (pre & last & ->).
      rewrite (forced_closure_open pre last s0 l t E Et) in Hfc.
      inversion Hfc. cbn [trades world db record_trade].
      rewrite <- Hentry. rewrite Et in Ho, Hc.
      now apply mirror_close.
    - rewrite neqb_negb, negb_false_iff in E.
      rewrite (forced_closure_flat data s0 E) in Hfc.
      inversion Hfc; subst. split; assumption. }
  destruct H2 as [H2o H2c]. repeat split; auto.
  rewrite (filter_split_length row_open (db (world st))), H2o, length_map.
  f_equal.
  rewrite <- (length_map row_result
                (filter (fun r => negb (row_open r)) (db (world st)))).
  now rewrite H2c, length_map.
Qed.

(** X11: The log of a run: one INFO record for every ledger row written in the
    loop, followed, exactly when a position is still open after the last
    bar, by the two WARNING records of the forced closure and the INFO
    record of its ledger row.  No record has level ERROR. *)
Theorem log_of_a_run (data : DataFrame) (st_loop st : State) :
  loop (initial_state initial_capital) data = Ok st_loop ->
  backtest_run data = Ok st ->
  map level (log (world st))
  = repeat INFO (List.length (db (world st_loop)))
    ++ (if position st_loop !=? zero then [WARNING; WARNING; INFO] else [])
  /\ forallb (fun r => match level r with ERROR => false | _ => true end)
             (log (world st)) = true.
Proof.
  intros Hloop Hrun.
  destruct (backtest_run_inv data)
    as (s0 & st1 & Hloop' & Hinv & Hfc & Hrun' & _).
  rewrite Hrun in Hrun'. inversion Hrun'; subst st1. clear Hrun'.
  rewrite Hloop in Hloop'. inversion Hloop'; subst s0. clear Hloop'.
  pose proof (loop_mirror_inv data _ _ initial_ledger_inv initial_mirror_inv
                Hloop) as (_ & _ & Hl & _).
  assert (H1 : map level (log (world st))
               = repeat INFO (List.length (db (world st_loop)))
                 ++ (if position st_loop !=? zero
                     then [WARNING; WARNING; INFO] else [])).
  { destruct (position st_loop !=? zero) eqn:E.
    - destruct Hinv as (_ & Hlast & _).
      destruct (Hlast E) as (l & t & Et & Hopen).
      destruct (loop_nil_position _ _ Hloop E) as (pre & last & ->).
      rewrite (forced_closure_open pre last st_loop l t E Et) in Hfc.
      inversion Hfc. cbn [world log record_trade].
      rewrite !map_app, Hl, <- !app_assoc. reflexivity.
    - rewrite neqb_negb, negb_false_iff in E.
      rewrite (forced_closure_flat data st_loop E) in Hfc.
      inversion Hfc; subst. now rewrite app_nil_r. }
  split; [exact H1|].
  assert (H2 : forallb (fun l => match l with ERROR => false | _ => true end)
                       (map level (log (world st))) = true).
  { rewrite H1, forallb_app. apply andb_true_iff. split.
    - apply forallb_forall. intros x Hx. apply repeat_spec in Hx. now subst.
    - destruct (position st_loop !=? zero); reflexivity. }
  clear -H2. induction (log (world st)) as [|r l IH]; [reflexivity|].
  cbn in *. apply andb_true_iff in H2 as [Hr Hl].
  rewrite Hr. now apply IH.
Qed.

Lemma from_signal_bar_close (data : DataFrame) (x p : num) (t : Trade.t) :
  from_signal_bar symbol data t ->
  from_signal_bar symbol data (close_trade x p t).
Proof. intros (bar & H). exists bar. exact H. Qed.

Lemma step_from_signal (data : DataFrame) (st : State) (bar : Bar)
      (st' : State) :
  In bar data ->
  Forall (from_signal_bar symbol data) (trades st) ->
  step st bar = Ok st' ->
  Forall (from_signal_bar symbol data) (trades st')
  /\ (List.length (trades st')
      <= List.length (trades st) + (if signal_bar bar then 1 else 0))%nat.
Proof.
  intros Hin Hall H.
  destruct (step_outcome _ _ _ H)
    as [Es Ez ->|Es Ez ->|l t Eg Ex Et p ->|l t Eg Ex Et p ->|En E1 E2 ->
        |Ez E1 E2 ->]; cbn [trades].
  - split.
    + apply Forall_app. split; [assumption|]. constructor; [|constructor].
      exists bar. repeat split; auto.
    + unfold signal_bar. rewrite Es, length_snoc. cbn. lia.
  - split.
    + apply Forall_app. split; [assumption|]. constructor; [|constructor].
      exists bar. repeat split; auto.
    + unfold signal_bar. rewrite Es, length_snoc. cbn. lia.
  - rewrite Et in *. apply Forall_app in Hall as [Hl Ht].
    split; [|rewrite !length_snoc; lia].
    apply Forall_app. split; [assumption|].
    inversion Ht; subst. constructor; [|constructor].
    now apply from_signal_bar_close.
  - rewrite Et in *. apply Forall_app in Hall as [Hl Ht].
    split; [|rewrite !length_snoc; lia].
    apply Forall_app. split; [assumption|].
    inversion Ht; subst. constructor; [|constructor].
    now apply from_signal_bar_close.
  - split; [assumption|lia].
  - split; [assumption|lia].
Qed.

Lemma loop_from_signal (data : DataFrame) (rest : DataFrame) :
  forall st st',
    incl rest data ->
    Forall (from_signal_bar symbol data) (trades st) ->
    loop st rest = Ok st' ->
    Forall (from_signal_bar symbol data) (trades st')
    /\ (List.length (trades st')
        <= List.length (trades st)
           + List.length (filter signal_bar rest))%nat.
Proof.
  induction rest as [|bar rest IH]; intros st st' Hincl Hall; cbn.
  - intro H. inversion H; subst. split; [assumption|lia].
  - destruct (step st bar) as [st1|] eqn:E1; cbn [bind]; [|discriminate].
    intro Hloop.
    destruct (step_from_signal data st bar st1
                (Hincl bar (or_introl eq_refl)) Hall E1) as [H1 L1].
    destruct (IH st1 st' (fun b Hb => Hincl b (or_intror Hb)) H1 Hloop)
      as [H2 L2].
    split; [assumption|].
    destruct (signal_bar bar); cbn [List.length]; lia.
Qed.

Lemma forced_closure_trades (data : DataFrame) (st st' : State) :
  forced_closure data st = Ok st' ->
  st' = st
  \/ ((position st !=? zero) = true
      /\ exists l t x p,
          trades st = l ++ [t] /\ trades st' = l ++ [close_trade x p t]).
Proof.
  unfold forced_closure.
  destruct (position st !=? zero); [|intro H; inversion H; now left].
  destruct (last_trade (trades st)); [|discriminate]. cbn [bind].
  destruct (last_bar data) as [last|]; [|discriminate]. cbn [bind].
  destruct (update_last _ (trades st)) as [l'|] eqn:U; [|discriminate].
  cbn [bind]. apply update_last_inv in U as (l0 & t & Et & ->).
  destruct (last_trade _); [|discriminate]. cbn [bind].
  intro H. inversion H. right. split; [reflexivity|].
  eexists l0, t, _, _. split; [exact Et|reflexivity].
Qed.

(** X3: Every returned trade was opened on a bar of the frame: its direction
    is Long for a bar with signal 1 and Short for a bar with signal -1, its
    timestamp is that bar's index label, its entry price that bar's close,
    and its symbol the one passed in.  So there are at most as many trades
    as bars with a signal. *)
Theorem trades_come_from_signals (data : DataFrame)
        (returned : list Trade.t) (pf : num) :
  backtest_strategy data = Ok (returned, pf) ->
  Forall (from_signal_bar symbol data) returned
  /\ (List.length returned <= List.length (filter signal_bar data))%nat.
Proof.
  unfold backtest_strategy, backtest_run.
  destruct (loop _ data) as [s0|] eqn:Hloop; cbn [bind]; [|discriminate].
  destruct (forced_closure data s0) as [st|] eqn:Hfc; cbn [bind];
    [|discriminate].
  intro H. inversion H; subst. clear H.
  destruct (loop_from_signal data data (initial_state initial_capital) s0
              (incl_refl data) (Forall_nil _) Hloop) as [Hall Hlen].
  cbn in Hlen.
  destruct (forced_closure_trades data s0 st Hfc)
    as [->|(_ & l & t & x & p & Et & Et')]; [split; assumption|].
  rewrite Et', length_snoc. rewrite Et, length_snoc in Hlen.
  split; [|exact Hlen].
  rewrite Et in Hall. apply Forall_app in Hall as [Hl Ht].
  apply Forall_app. split; [assumption|].
  inversion Ht; subst. constructor; [|constructor].
  now apply from_signal_bar_close.
Qed.

(** X4: At most one position at a time.  When every entry signal of the frame
    gets a non-zero size, then after any number of bars all trades are
    Closed while flat, and while a position is open its trade is the last
    one and the only Open one. *)
Theorem one_open_trade_at_most (pre post : DataFrame) (st : State) :
  sized_entries (pre ++ post) = true ->
  loop (initial_state initial_capital) pre = Ok st ->
  if position st ==? zero
  then forallb is_closed (trades st) = true
  else exists l t,
      trades st = l ++ [t]
      /\ forallb is_closed l = true
      /\ Trade.status t = Open.
Proof.
  intros Hsz Hloop. unfold sized_entries in Hsz.
  rewrite forallb_app in Hsz. apply andb_true_iff in Hsz as [Hpre _].
  destruct (loop_closed_inv pre _ _ Hpre initial_closed_inv Hloop)
    as [Hz Hnz].
  destruct (position st ==? zero) eqn:E; [now apply Hz|].
  apply Hnz. unfold Num.neqb. now rewrite E.
Qed.

Lemma history_kept_refl (l : list Trade.t) : history_kept l l.
Proof. split; [exists []; now rewrite app_nil_r|auto]. Qed.

Lemma history_kept_trans (l1 l2 l3 : list Trade.t) :
  history_kept l1 l2 -> history_kept l2 l3 -> history_kept l1 l3.
Proof.
  intros [[e1 H1] K1] [[e2 H2] K2]. split.
  - exists (e1 ++ e2). now rewrite H2, H1, app_assoc.
  - intros i t Hi Hc. apply K2; auto.
Qed.

Lemma history_kept_snoc (l : list Trade.t) (t : Trade.t) :
  history_kept l (l ++ [t]).
Proof.
  split; [exists [opening t]; now rewrite map_app|].
  intros i t0 Hi _. rewrite nth_error_app1; [assumption|].
  apply nth_error_Some. congruence.
Qed.

Lemma history_kept_close (l : list Trade.t) (t : Trade.t) (x p : num) :
  Trade.status t = Open ->
  history_kept (l ++ [t]) (l ++ [close_trade x p t]).
Proof.
  intro Hopen. split; [exists []; now rewrite !map_app, app_nil_r|].
  intros i t0 Hi Hc.
  destruct (Nat.lt_ge_cases i (List.length l)) as [Hlt|Hge].
  - rewrite nth_error_app1 in * by assumption. assumption.
  - rewrite nth_error_app2 in Hi by assumption.
    destruct (i - List.length l)%nat as [|k]; cbn in Hi.
    + inversion Hi; subst. congruence.
    + destruct k; discriminate.
Qed.

Lemma step_history_kept (st : State) (bar : Bar) (st' : State) :
  ledger_inv st -> step st bar = Ok st' ->
  history_kept (trades st) (trades st').
Proof.
  intros (_ & Hlast & _) H.
  destruct (step_outcome _ _ _ H)
    as [Es Ez ->|Es Ez ->|l t Eg Ex Et p ->|l t Eg Ex Et p ->|En E1 E2 ->
        |Ez E1 E2 ->]; cbn [trades];
    auto using history_kept_refl, history_kept_snoc.
  - destruct (Hlast (gtb_neqb_zero _ Eg)) as (l0 & t0 & Et0 & Hopen).
    rewrite Et in Et0. apply app_inj_tail in Et0 as [<- <-].
    rewrite Et. now apply history_kept_close.
  - destruct (Hlast (ltb_neqb_zero _ Eg)) as (l0 & t0 & Et0 & Hopen).
    rewrite Et in Et0. apply app_inj_tail in Et0 as [<- <-].
    rewrite Et. now apply history_kept_close.
Qed.

Lemma loop_history_kept (data : DataFrame) :
  forall st st',
    ledger_inv st -> loop st data = Ok st' ->
    history_kept (trades st) (trades st') /\ ledger_inv st'.
Proof.
  induction data as [|bar rest IH]; intros st st' Hinv; cbn.
  - intro H. inversion H; subst. split; [apply history_kept_refl|assumption].
  - destruct (step st bar) as [st1|] eqn:E1; cbn [bind]; [|discriminate].
    intro Hloop.
    destruct (IH st1 st' (step_ledger_inv _ _ _ Hinv E1) Hloop) as [K Hi].
    split; [|assumption].
    eapply history_kept_trans; [|exact K].
    now apply (step_history_kept st bar st1).
Qed.

(** X5: The trade list is a history: however the run continues after some
    bars, the list returned at the end extends the list as it stood, no
    trade has changed its timestamp, symbol, direction or entry price, and
    every trade that was Closed is returned exactly as it was. *)
Theorem closed_trades_are_final (pre post : DataFrame) (st final : State) :
  loop (initial_state initial_capital) pre = Ok st ->
  backtest_run (pre ++ post) = Ok final ->
  history_kept (trades st) (trades final).
Proof.
  intros Hpre. unfold backtest_run. rewrite loop_app, Hpre. cbn [bind].
  destruct (loop st post) as [s0|] eqn:Hpost; cbn [bind]; [|discriminate].
  intro Hfc.
  destruct (loop_ledger_inv pre _ initial_ledger_inv) as (st0 & H0 & Hinv).
  rewrite Hpre in H0. inversion H0; subst st0. clear H0.
  destruct (loop_history_kept post st s0 Hinv Hpost) as [K (_ & Hlast & _)].
  eapply history_kept_trans; [exact K|].
  destruct (forced_closure_trades _ _ _ Hfc)
    as [->|(Hn & l & t & x & p & Et & Et')]; [apply history_kept_refl|].
  destruct (Hlast Hn) as (l0 & t0 & Et0 & Hopen).
  rewrite Et in Et0. apply app_inj_tail in Et0 as [<- <-].
  rewrite Et, Et'. now apply history_kept_close.
Qed.

Lemma scale_inf_opp (d d' : Q) (s : bool) :
  (d' == - d)%Q -> scale_inf d' s = scale_inf d (negb s).
Proof.
  intro H. unfold scale_inf.
  assert (E0 : Qeq_bool d' 0 = Qeq_bool d 0).
  { rewrite H. apply Qeq_bool_opp. }
  rewrite E0. destruct (Qeq_bool d 0) eqn:E; [reflexivity|].
  apply Qeq_bool_false in E.
  assert (Ep : Qpos_b d' = negb (Qpos_b d)).
  { rewrite <- (Qpos_b_opp d E). unfold Qpos_b. now rewrite H. }
  rewrite Ep. destruct (Qpos_b d), s; reflexivity.
Qed.

(** The two profit formulas are one: the price move times the signed
    size. *)
Lemma realized_signed (pos entry exit : num) :
  realized_profit pos entry exit =~ (exit - entry) * pos.
Proof.
  unfold realized_profit. destruct (pos >? zero) eqn:E;
    [apply same_refl|].
  destruct pos as [q| | |]; cbn in E; try discriminate.
  - apply negb_false_iff, Qle_bool_iff in E.
    pose proof (Qabs_neg q E) as Hq.
    destruct entry as [a| | |], exit as [b| | |]; cbn; auto;
      first [ rewrite Hq; ring
            | rewrite (scale_inf_opp q (Qabs q) true Hq); apply same_refl
            | rewrite (scale_inf_opp q (Qabs q) false Hq); apply same_refl ].
  - destruct entry as [a| | |], exit as [b| | |]; cbn; auto.
    rewrite (scale_inf_opp (b + - a) (a + - b) true) by ring.
    apply same_refl.
  - destruct entry as [a| | |], exit as [b| | |]; cbn; auto.
Qed.

(** X6: Every closing, by an exit in the loop or by the forced closure, adds
    to the portfolio the move of the price since the entry times the signed
    position: [(close - entry_price) x position], a gain for a long
    position when the price rose and for a short one when it fell. *)
Theorem closing_adds_signed_move (data : DataFrame) :
  (forall st bar st',
      step st bar = Ok st' ->
      (position st !=? zero) = true -> (position st' ==? zero) = true ->
      portfolio st'
      =~ portfolio st + (Close bar - entry_price st) * position st)
  /\ (forall st st' pre last,
         data = pre ++ [last] ->
         (position st !=? zero) = true ->
         forced_closure data st = Ok st' ->
         portfolio st'
         =~ portfolio st + (Close last - entry_price st) * position st).
Proof.
  split.
  - intros st bar st' H Hn Hz. rewrite (exit_profit st bar st' H Hn Hz).
    apply add_same; [apply same_refl|apply realized_signed].
  - intros st st' pre last -> Hn. unfold forced_closure. rewrite Hn.
    destruct (last_trade (trades st)) as [t0|]; [|discriminate]. cbn [bind].
    rewrite last_bar_app. cbn [bind].
    destruct (update_last _ (trades st)) as [l'|]; [|discriminate].
    cbn [bind]. destruct (last_trade l'); [|discriminate]. cbn [bind].
    intro H. inversion H. cbn [portfolio].
    apply add_same; [apply same_refl|].
    apply (realized_signed (position st) (entry_price st) (Close last)).
Qed.

(** X7: In every volatility regime the take-profit distance is twice the
    stop-loss distance. *)
Theorem reward_is_twice_risk (bar : Bar) :
  take_profit bar =~ Fin 2 * stop_loss bar.
Proof.
  unfold take_profit, stop_loss. cbv zeta.
  destruct (volatility_factor bar <? Fin 0.01);
    [|destruct (volatility_factor bar >? Fin 0.02)];
    destruct (ATR bar) as [a| | |]; try (vm_compute; exact I);
    cbn; ring.
Qed.

Lemma not_final_snoc (l : list LogRecord) (r : LogRecord) :
  forallb (fun r => negb (is_final_record r)) l = true ->
  is_final_record r = false ->
  forallb (fun r => negb (is_final_record r)) (l ++ [r]) = true.
Proof. intros Hl Hr. rewrite forallb_app, Hl. cbn. now rewrite Hr. Qed.

Lemma step_log_not_final (st : State) (bar : Bar) (st' : State) :
  forallb (fun r => negb (is_final_record r)) (log (world st)) = true ->
  step st bar = Ok st' ->
  forallb (fun r => negb (is_final_record r)) (log (world st')) = true.
Proof.
  intros Hl H.
  destruct (step_outcome _ _ _ H)
    as [Es Ez ->|Es Ez ->|l t Eg Ex Et p ->|l t Eg Ex Et p ->|En E1 E2 ->
        |Ez E1 E2 ->]; cbn [world log record_trade];
    auto using not_final_snoc.
Qed.

Lemma loop_log_not_final (data : DataFrame) :
  forall st st',
    forallb (fun r => negb (is_final_record r)) (log (world st)) = true ->
    loop st data = Ok st' ->
    forallb (fun r => negb (is_final_record r)) (log (world st')) = true.
Proof.
  induction data as [|bar rest IH]; intros st st' Hl; cbn.
  - intro H. now inversion H; subst.
  - destruct (step st bar) as [st1|] eqn:E1; cbn [bind]; [|discriminate].
    apply IH. eapply step_log_not_final; eauto.
Qed.

Lemma run_log_not_final (data : DataFrame) (st : State) :
  backtest_run data = Ok st ->
  forallb (fun r => negb (is_final_record r)) (log (world st)) = true.
Proof.
  unfold backtest_run.
  destruct (loop _ data) as [s0|] eqn:Hloop; cbn [bind]; [|discriminate].
  pose proof (loop_log_not_final data (initial_state initial_capital) s0
                eq_refl Hloop) as H0.
  unfold forced_closure.
  destruct (position s0 !=? zero); [|intro H; now inversion H; subst].
  destruct (last_trade (trades s0)); [|discriminate]. cbn [bind].
  destruct (last_bar data) as [last|]; [|discriminate]. cbn [bind].
  destruct (update_last _ (trades s0)) as [l'|]; [|discriminate].
  cbn [bind]. destruct (last_trade l'); [|discriminate]. cbn [bind].
  intro H. inversion H. cbn [world log record_trade].
  auto using not_final_snoc.
Qed.

Lemma stop_loss_positive_multiple (bar : Bar) :
  exists m, (0 < m)%Q /\ stop_loss bar = ATR bar * Fin m.
Proof.
  unfold stop_loss. cbv zeta.
  destruct (_ <? _); [exists 2%Q; split; [lra|reflexivity]|].
  destruct (_ >? _); [exists 1.5%Q|exists 1.75%Q]; split;
    lra || reflexivity.
Qed.

(** X8: With a positive capital at risk and a positive ATR, whatever the
    close, a long entry is sized positive and a short entry negative: the
    sign of the position agrees with the direction of the trade, and no
    entry has the size 0 that the flat test would mistake for no
    position. *)
Theorem positive_inputs_size_entries (bar : Bar) (q a : Q) :
  initial_capital * risk_per_trade = Fin q -> (0 < q)%Q ->
  ATR bar = Fin a -> (0 < a)%Q ->
  (long_size bar >? zero) = true
  /\ (short_size bar <? zero) = true
  /\ sized_entry bar = true.
Proof.
  intros Hq Hq0 Ha Ha0.
  destruct (stop_loss_positive_multiple bar) as (m & Hm & Hsl).
  destruct (clamp_is_finite (Fin 0.02 / volatility_factor bar))
    as (k & Hk & Hk0).
  assert (Hqk : (0 < q * k)%Q) by (apply Qmult_lt_0_compat; lra).
  assert (Ham : (0 < a * m)%Q) by (apply Qmult_lt_0_compat; lra).
  assert (Hne : Qeq_bool (a * m) 0 = false)
    by (apply Qeq_bool_false; lra).
  assert (Hl : long_size bar = Fin (q * k / (a * m))).
  { unfold long_size, position_size_factor.
    rewrite Hk, Hq, Hsl, Ha. cbn. now rewrite Hne. }
  assert (Hs : short_size bar = Fin (- (q * k) / (a * m))).
  { unfold short_size, position_size_factor.
    rewrite Hk, Hq, Hsl, Ha. cbn. now rewrite Hne. }
  assert (Hlpos : (long_size bar >? zero) = true).
  { rewrite Hl. unfold Num.gtb. cbn. apply negb_true_iff, Qle_bool_false.
    apply Qlt_shift_div_l; lra. }
  assert (Hsneg : (short_size bar <? zero) = true).
  { rewrite Hs. cbn. apply negb_true_iff, Qle_bool_false.
    apply Qlt_shift_div_r; lra. }
  split; [exact Hlpos|]. split; [exact Hsneg|].
  unfold sized_entry. rewrite (gtb_neqb_zero _ Hlpos), (ltb_neqb_zero _ Hsneg).
  destruct (Signal bar =? 1)%Z, (Signal bar =? -1)%Z; reflexivity.
Qed.

Lemma update_last_prefix (f : Trade.t -> Trade.t) (before l : list Trade.t)
      (t : Trade.t) :
  update_last f (before ++ l ++ [t]) = Ok (before ++ l ++ [f t]).
Proof. now rewrite !app_assoc, update_last_app. Qed.

Lemma step_continues (before : list Trade.t) (s1 s2 : State) (bar : Bar)
      (s2' : State) :
  continues before s1 s2 ->
  ((position s2 !=? zero) = true -> exists l t, trades s2 = l ++ [t]) ->
  step s2 bar = Ok s2' ->
  exists s1', step s1 bar = Ok s1' /\ continues before s1' s2'.
Proof.
  intros [Hpos Ht] Hne H. rewrite step_unfold in H. rewrite step_unfold.
  destruct Hpos as [[Hz1 Hz2]|(Ep & Ee & Es)].
  - rewrite Hz1. rewrite Hz2 in H.
    rewrite (eqb_true_neqb _ _ Hz1). rewrite (eqb_true_neqb _ _ Hz2) in H.
    rewrite !andb_true_r in *.
    destruct (Signal bar =? 1)%Z;
      [|destruct (Signal bar =? -1)%Z]; inversion H; subst; clear H;
      eexists; (split; [reflexivity|]); split; cbn [trades];
      try (right; repeat split; reflexivity);
      try (now rewrite Ht, app_assoc); try assumption.
    left. split; assumption.
  - assert (El : long_exit s1 bar = long_exit s2 bar)
      by (unfold long_exit, ratchet; now rewrite Ep, Ee, Es).
    assert (Esh : short_exit s1 bar = short_exit s2 bar)
      by (unfold short_exit, ratchet; now rewrite Ep, Ee, Es).
    assert (Er : ratchet s1 bar = ratchet s2 bar)
      by (unfold ratchet; now rewrite Ep, Ee, Es).
    rewrite Ep, Ee, El, Esh, Er.
    destruct ((Signal bar =? 1)%Z && (position s2 ==? zero)).
    { inversion H; subst; clear H. eexists. split; [reflexivity|].
      split; cbn [trades]; [right; repeat split|now rewrite Ht, app_assoc]. }
    destruct ((Signal bar =? -1)%Z && (position s2 ==? zero)).
    { inversion H; subst; clear H. eexists. split; [reflexivity|].
      split; cbn [trades]; [right; repeat split|now rewrite Ht, app_assoc]. }
    destruct (position s2 !=? zero) eqn:En.
    + destruct (Hne eq_refl) as (l & t & Et). rewrite Et in H, Ht.
      rewrite Ht. cbv zeta in *.
      destruct (long_exit s2 bar); [|destruct (short_exit s2 bar)].
      * rewrite update_last_app in H. rewrite update_last_prefix.
        cbn [bind] in *. inversion H; subst; clear H.
        eexists. split; [reflexivity|].
        split; cbn [trades]; [right; repeat split|reflexivity].
      * rewrite update_last_app in H. rewrite update_last_prefix.
        cbn [bind] in *. inversion H; subst; clear H.
        eexists. split; [reflexivity|].
        split; cbn [trades]; [right; repeat split|reflexivity].
      * inversion H; subst; clear H. eexists. split; [reflexivity|].
        split; cbn [trades]; [right; repeat split; assumption|].
        reflexivity.
    + inversion H; subst; clear H. exists s1. split; [reflexivity|].
      split; [right; repeat split; assumption|assumption].
Qed.

Lemma loop_continues (before : list Trade.t) (data : DataFrame) :
  forall s1 s2 s2',
    continues before s1 s2 -> ledger_inv s2 -> loop s2 data = Ok s2' ->
    exists s1',
      loop s1 data = Ok s1' /\ continues before s1' s2' /\ ledger_inv s2'.
Proof.
  induction data as [|bar rest IH]; intros s1 s2 s2' Hc Hinv; cbn.
  - intro H. inversion H; subst. eauto.
  - destruct (step s2 bar) as [s2a|] eqn:E2; cbn [bind]; [|discriminate].
    intro Hloop.
    destruct (step_continues before s1 s2 bar s2a Hc
                (ledger_inv_nonempty s2 Hinv) E2) as (s1a & E1 & Hca).
    rewrite E1. cbn [bind].
    apply (IH s1a s2a s2' Hca (step_ledger_inv _ _ _ Hinv E2) Hloop).
Qed.

Lemma same_position_flat (s1 s2 : State) :
  same_position s1 s2 ->
  (position s1 !=? zero) = (position s2 !=? zero).
Proof.
  intros [[H1 H2]|(Ep & _)]; [|now rewrite Ep].
  now rewrite (eqb_true_neqb _ _ H1), (eqb_true_neqb _ _ H2).
Qed.

(** X9: Runs compose at a flat point.  If the position is flat after the bars
    of [pre], the run over [pre ++ post] returns the trades of the run over
    [pre] followed by the trades of a run over [post] alone, and its
    portfolio is the one after [pre] plus the profits of the Closed trades
    of [post]: the second stretch trades exactly as it would from a fresh
    start, its sizes not depending on what was won or lost before. *)
Theorem runs_compose_when_flat (pre post : DataFrame) (st : State)
        (later : list Trade.t) (pf : num) :
  loop (initial_state initial_capital) pre = Ok st ->
  (position st ==? zero) = true ->
  backtest_strategy post = Ok (later, pf) ->
  backtest_strategy pre = Ok (trades st, portfolio st)
  /\ backtest_strategy (pre ++ post)
     = Ok (trades st ++ later,
           fold_left Num.add (closed_profits later) (portfolio st)).
Proof.
  intros Hpre Hz Hpost. split.
  { unfold backtest_strategy, backtest_run. rewrite Hpre. cbn [bind].
    now rewrite (forced_closure_flat pre st Hz). }
  destruct (loop_ledger_inv pre _ initial_ledger_inv) as (st0 & H0 & Hst).
  rewrite Hpre in H0. inversion H0; subst st0. clear H0.
  unfold backtest_strategy, backtest_run in Hpost.
  destruct (loop _ post) as [s2|] eqn:Hl2; cbn [bind] in Hpost;
    [|discriminate].
  destruct (forced_closure post s2) as [f2|] eqn:Hf2; cbn [bind] in Hpost;
    [|discriminate].
  inversion Hpost; subst later pf. clear Hpost.
  assert (Hc0 : continues (trades st) st (initial_state initial_capital)).
  { split; [left; split; [assumption|reflexivity]|].
    cbn. now rewrite app_nil_r. }
  destruct (loop_continues (trades st) post st _ s2 Hc0 initial_ledger_inv
              Hl2) as (s1 & Hl1 & [Hsame Ht] & Hinv2).
  assert (Htr : exists f1,
             forced_closure (pre ++ post) s1 = Ok f1
             /\ trades f1 = trades st ++ trades f2).
  { pose proof (same_position_flat s1 s2 Hsame) as Hflat.
    destruct (position s2 !=? zero) eqn:En.
    - destruct Hsame as [[_ Hz2]|(Ep & Ee & _)];
        [rewrite (eqb_true_neqb _ _ Hz2) in En; discriminate|].
      destruct Hinv2 as (_ & Hlast & _).
      destruct (Hlast En) as (l & t & Et & _).
      destruct (loop_nil_position _ _ Hl2 En) as (p & last & ->).
      rewrite (forced_closure_open p last s2 l t En Et) in Hf2.
      inversion Hf2; subst f2. cbn [trades].
      rewrite Et, (app_assoc (trades st) l [t]) in Ht.
      rewrite (app_assoc pre p [last]).
      rewrite (forced_closure_open (pre ++ p) last s1 _ t Hflat Ht).
      eexists. split; [reflexivity|]. cbn [trades].
      now rewrite Ep, Ee, <- app_assoc.
    - assert (Hz2 : (position s2 ==? zero) = true)
        by (rewrite neqb_negb, negb_false_iff in En; exact En).
      assert (Hz1 : (position s1 ==? zero) = true)
        by (rewrite neqb_negb, negb_false_iff in Hflat; exact Hflat).
      rewrite (forced_closure_flat post s2 Hz2) in Hf2.
      inversion Hf2; subst f2.
      exists s1. split; [now apply forced_closure_flat|assumption]. }
  destruct Htr as (f1 & Hf1 & Htf).
  destruct (backtest_run_inv (pre ++ post))
    as (s0 & f0 & Hl0 & _ & Hf0 & _ & Hp0 & _).
  rewrite loop_app, Hpre in Hl0. cbn [bind] in Hl0.
  rewrite Hl1 in Hl0. inversion Hl0; subst s0. clear Hl0.
  rewrite Hf1 in Hf0. inversion Hf0; subst f0. clear Hf0.
  unfold backtest_strategy, backtest_run.
  rewrite loop_app, Hpre. cbn [bind]. rewrite Hl1. cbn [bind].
  rewrite Hf1. cbn [bind]. rewrite Hp0, Htf.
  destruct Hst as (Hpst & _).
  now rewrite closed_profits_app, fold_left_app, <- Hpst.
Qed.

End BacktestFacts.

(* ================================================================== *)
(** * Frames without rows or without a column *)
(* ================================================================== *)






(* ================================================================== *)
(** * The refusal of insufficient data, and the driver *)
(* ================================================================== *)

Section MainFacts.

Variable fetch : string -> option Frame.
Variable indicators : Frame -> DataFrame.

Local Abbreviation main_body := (main_body fetch indicators).


End MainFacts.

(* ================================================================== *)
(** * Further properties of the signal *)
(* ================================================================== *)

Section SignalFacts.

Lemma generate_signals_map (data : DataFrame) :
  generate_signals data = map (fun b => set_Signal (signal_of b) b) data.
Proof.
  unfold generate_signals, write_signals, loc_assign_Signal, assign_Signal.
  induction data as [|b data IH]; [reflexivity|].
  cbn. rewrite IH. f_equal. unfold signal_of.
  change (long_condition (set_Signal 0 b)) with (long_condition b).
  change (short_condition (set_Signal 0 b)) with (short_condition b).
  destruct (short_condition b), (long_condition b); reflexivity.
Qed.

Lemma signal_of_range (b : Bar) :
  signal_of b = 1%Z \/ signal_of b = 0%Z \/ signal_of b = (-1)%Z.
Proof.
  unfold signal_of. destruct (short_condition b), (long_condition b); auto.
Qed.

(** X12: [generate_signals] only writes the [Signal] column, with values among
    1, 0 and -1; what the column held before does not matter; and running
    it a second time changes nothing. *)
Theorem generate_signals_overwrites (data : DataFrame) :
  map (set_Signal 0) (generate_signals data) = map (set_Signal 0) data
  /\ Forall (fun b => Signal b = 1%Z \/ Signal b = 0%Z \/ Signal b = (-1)%Z)
            (generate_signals data)
  /\ (forall data',
         map (set_Signal 0) data' = map (set_Signal 0) data ->
         generate_signals data' = generate_signals data)
  /\ generate_signals (generate_signals data) = generate_signals data.
Proof.
  rewrite !generate_signals_map.
  split; [|split; [|split]].
  - rewrite map_map. reflexivity.
  - apply Forall_forall. intros b' [b [<- _]]%in_map_iff.
    apply signal_of_range.
  - intros data'. rewrite generate_signals_map. revert data'.
    induction data as [|b data IH]; intros [|b' data']; cbn;
      try discriminate; [reflexivity|].
    intro H. inversion H as [[Hi Hc Hj Ht Hl Ha Hm Hs Hr Hv He Hd Hg Hrest]].
    rewrite (IH data' Hrest). f_equal.
    destruct b, b'; cbn in *; subst. reflexivity.
  - rewrite map_map. reflexivity.
Qed.

Lemma ltb_nan_l (x : num) : (NaN <? x) = false.
Proof. reflexivity. Qed.

Lemma ltb_nan_r (x : num) : (x <? NaN) = false.
Proof. now destruct x. Qed.

Lemma signal_of_nan (b : Bar) :
  In NaN (compared_columns b) -> signal_of b = 0%Z.
Proof.
  intro H. apply signal_of_flat.
  unfold long_condition, short_condition, Num.gtb.
  cbn in H.
  repeat (destruct H as [H|H];
          [rewrite H, ?ltb_nan_l, ?ltb_nan_r, ?andb_false_r, ?andb_false_l;
           split; reflexivity|]).
  contradiction.
Qed.

(** X13: A row with a [nan] in any of the eleven columns the conditions compare
    gets the signal 0. *)
Theorem nan_row_has_no_signal (data : DataFrame) (i : nat) (b : Bar) :
  nth_error data i = Some b ->
  In NaN (compared_columns b) ->
  exists b',
    nth_error (generate_signals data) i = Some b' /\ Signal b' = 0%Z.
Proof.
  intros Hb Hnan. exists (set_Signal (signal_of b) b).
  split; [now apply generate_signals_nth|].
  cbn. now apply signal_of_nan.
Qed.

End SignalFacts.

(* ================================================================== *)
(** * Shifted and forward-filled columns *)
(* ================================================================== *)

Section Columns.

Lemma shift_length (n : nat) (s : list num) :
  List.length (shift n s) = List.length s.
Proof.
  unfold shift. rewrite length_firstn, length_app, repeat_length. lia.
Qed.

Lemma shift_head (n : nat) (s : list num) (i : nat) :
  (i < n)%nat -> nth i (shift n s) NaN = NaN.
Proof.
  intro Hi. unfold shift.
  destruct (Nat.lt_ge_cases i (List.length s)) as [Hlt|Hge].
  - rewrite nth_firstn.
    replace (i <? List.length s)%nat with true
      by (symmetry; now apply Nat.ltb_lt).
    rewrite app_nth1 by (rewrite repeat_length; lia).
    apply nth_repeat.
  - apply nth_overflow. rewrite length_firstn. lia.
Qed.

(** [shift n] keeps the length, makes the first [n] rows [nan] and moves
    every value down by [n] rows, those pushed past the end being lost. *)
Theorem shift_spec (n : nat) (s : list num) :
  List.length (shift n s) = List.length s
  /\ (forall i, (i < n)%nat -> (i < List.length s)%nat ->
                nth_error (shift n s) i = Some NaN)
  /\ (forall i, (i + n < List.length s)%nat ->
                nth_error (shift n s) (i + n) = nth_error s i).
Proof.
  split; [apply shift_length|]. split.
  - intros i Hn Hl.
    rewrite (nth_error_nth' (shift n s) NaN)
      by (rewrite shift_length; lia).
    now rewrite shift_head.
  - intros i Hl. unfold shift.
    rewrite nth_error_firstn.
    replace (i + n <? List.length s)%nat with true
      by (symmetry; now apply Nat.ltb_lt).
    rewrite nth_error_app2 by (rewrite repeat_length; lia).
    rewrite repeat_length. f_equal. lia.
Qed.

Lemma ffill_from_length (s : list num) :
  forall p, List.length (ffill_from p s) = List.length s.
Proof. induction s as [|x s IH]; intro p; cbn; auto. Qed.

Lemma ffill_from_keeps (s : list num) :
  forall p i x,
    nth_error s i = Some x -> x <> NaN ->
    nth_error (ffill_from p s) i = Some x.
Proof.
  induction s as [|y s IH]; intros p [|i] x Hi Hx; try discriminate.
  - cbn in *. inversion Hi; subst. destruct x; cbn; congruence.
  - cbn in *. now apply IH.
Qed.

Lemma ffill_from_idem (s : list num) :
  forall p, ffill_from p (ffill_from p s) = ffill_from p s.
Proof.
  induction s as [|x s IH]; intro p; [reflexivity|]. cbn.
  assert (E : (if is_nan (if is_nan x then p else x) then p
               else if is_nan x then p else x)
              = (if is_nan x then p else x)).
  { destruct x; cbn; try reflexivity. destruct p; reflexivity. }
  rewrite E. f_equal. apply IH.
Qed.

Lemma ffill_from_filled (s : list num) :
  forall p i,
    p <> NaN -> (i < List.length s)%nat -> nth i (ffill_from p s) NaN <> NaN.
Proof.
  induction s as [|x s IH]; intros p i Hp Hi; cbn in *; [lia|].
  assert (Hy : (if is_nan x then p else x) <> NaN)
    by (destruct x; cbn; congruence).
  destruct i as [|i]; [assumption|]. apply IH; [assumption|lia].
Qed.

Lemma ffill_from_tail (s : list num) :
  forall p i j,
    (i <= j)%nat -> (j < List.length s)%nat ->
    nth i (ffill_from p s) NaN <> NaN ->
    nth j (ffill_from p s) NaN <> NaN.
Proof.
  induction s as [|x s IH]; intros p i j Hij Hj Hi; cbn in *; [lia|].
  destruct j as [|j]; [now replace i with 0%nat in Hi by lia|].
  destruct i as [|i].
  - apply ffill_from_filled; [assumption|lia].
  - apply (IH _ i j); [lia|lia|assumption].
Qed.

Lemma ffill_from_leading (s : list num) :
  forall i,
    (forall j, (j <= i)%nat -> nth j s NaN = NaN) ->
    nth i (ffill_from NaN s) NaN = NaN.
Proof.
  induction s as [|x s IH]; intros i H; [now destruct i|].
  pose proof (H 0%nat (Nat.le_0_l i)) as H0. cbn in H0. subst x. cbn.
  destruct i as [|i]; [reflexivity|].
  apply IH. intros j Hj. apply (H (S j)). lia.
Qed.

(** The forward fill keeps the length and every value that is not [nan],
    leaves a [nan] only where no value precedes it (once a row holds a
    value, all later rows do), and filling twice is filling once. *)
Theorem ffill_spec (s : list num) :
  List.length (ffill s) = List.length s
  /\ (forall i x, nth_error s i = Some x -> x <> NaN ->
                  nth_error (ffill s) i = Some x)
  /\ (forall i j, (i <= j)%nat -> (j < List.length s)%nat ->
                  nth i (ffill s) NaN <> NaN -> nth j (ffill s) NaN <> NaN)
  /\ (forall i, (forall j, (j <= i)%nat -> nth j s NaN = NaN) ->
                nth i (ffill s) NaN = NaN)
  /\ ffill (ffill s) = ffill s.
Proof.
  unfold ffill. split; [apply ffill_from_length|].
  split; [intros i x; apply ffill_from_keeps|].
  split; [apply ffill_from_tail|].
  split; [apply ffill_from_leading|apply ffill_from_idem].
Qed.

Lemma assign_column_length (set : num -> Bar -> Bar) (data : DataFrame) :
  forall s, List.length (assign_column set s data) = List.length data.
Proof. induction data as [|b data IH]; intro s; cbn; auto. Qed.

Lemma assign_column_other (get : Bar -> num) (set : num -> Bar -> Bar)
      (data : DataFrame) :
  (forall v b, get (set v b) = get b) ->
  forall s, map get (assign_column set s data) = map get data.
Proof.
  intro H. induction data as [|b data IH]; intro s; cbn; [reflexivity|].
  now rewrite H, IH.
Qed.

Lemma assign_column_same (get : Bar -> num) (set : num -> Bar -> Bar)
      (data : DataFrame) :
  (forall v b, get (set v b) = v) ->
  forall s i,
    nth i (map get (assign_column set s data)) NaN
    = if (i <? List.length data)%nat then nth i s NaN else NaN.
Proof.
  intro H. induction data as [|b data IH]; intros s i; cbn [assign_column map].
  - now destruct i.
  - destruct i as [|i].
    + cbn. rewrite H. now destruct s.
    + cbn [nth List.length]. rewrite IH.
      change (S i <? S (List.length data))%nat
        with (i <? List.length data)%nat.
      destruct (i <? List.length data)%nat; [|reflexivity].
      destruct s; [now destruct i|reflexivity].
Qed.

Lemma assign_column_index (set : num -> Bar -> Bar) (data : DataFrame) :
  (forall v b, index (set v b) = index b) ->
  forall s, map index (assign_column set s data) = map index data.
Proof.
  intro H. induction data as [|b data IH]; intro s; cbn; [reflexivity|].
  now rewrite H, IH.
Qed.

Lemma assign_column_exact (get : Bar -> num) (set : num -> Bar -> Bar)
      (data : DataFrame) :
  (forall v b, get (set v b) = v) ->
  forall s, List.length s = List.length data ->
            map get (assign_column set s data) = s.
Proof.
  intro H. induction data as [|b data IH]; intros [|x s] Hl;
    try discriminate; [reflexivity|].
  cbn. rewrite H, IH; [reflexivity|]. cbn in Hl. lia.
Qed.

End Columns.

(* ================================================================== *)
(** * The feature stages *)
(* ================================================================== *)

Section Pipeline.

Variable ewm_mean : nat -> list num -> list num.
Variable pct_change : list num -> list num.
Variable talib_ADX : list num -> list num -> list num -> nat -> list num.
Variable talib_CMO : list num -> nat -> list num.
Variable talib_STOCHRSI :
  list num -> nat -> nat -> nat -> nat -> list num * list num.
Variable talib_ATR : list num -> list num -> list num -> nat -> list num.
Variable talib_EMA : list num -> nat -> list num.
Variable talib_MACD :
  list num -> nat -> nat -> nat -> list num * list num * list num.

Local Abbreviation calculate_alligator := (calculate_alligator ewm_mean).
Local Abbreviation calculate_indicators :=
  (calculate_indicators pct_change talib_ADX talib_CMO talib_STOCHRSI
                        talib_ATR talib_EMA talib_MACD).
Local Abbreviation features :=
  (features ewm_mean pct_change talib_ADX talib_CMO talib_STOCHRSI
            talib_ATR talib_EMA talib_MACD).

Lemma ffill_column_other (get get' : Bar -> num) (set' : num -> Bar -> Bar)
      (data : DataFrame) :
  (forall v b, get (set' v b) = get b) ->
  map get (ffill_column get' set' data) = map get data.
Proof. intro H. now apply assign_column_other. Qed.

Lemma ffill_column_lead (get : Bar -> num) (set : num -> Bar -> Bar)
      (data : DataFrame) (n : nat) :
  (forall v b, get (set v b) = v) ->
  (forall i, (i < n)%nat -> nth i (map get data) NaN = NaN) ->
  forall i, (i < n)%nat ->
            nth i (map get (ffill_column get set data)) NaN = NaN.
Proof.
  intros H Hlead i Hi. unfold ffill_column.
  rewrite (assign_column_same get set data H).
  destruct (i <? List.length data)%nat; [|reflexivity].
  apply ffill_from_leading. intros j Hj. apply Hlead. lia.
Qed.

Lemma alligator_jaw (data : DataFrame) (i : nat) :
  (i < 8)%nat -> nth i (map Jaw (calculate_alligator data)) NaN = NaN.
Proof.
  intro Hi. unfold calculate_alligator. cbv zeta.
  rewrite !(assign_column_other Jaw) by reflexivity.
  rewrite (assign_column_same Jaw with_Jaw) by reflexivity.
  destruct (i <? List.length data)%nat; [|reflexivity].
  now apply shift_head.
Qed.

Lemma ffill_frame_jaw (data : DataFrame) (n : nat) :
  (forall i, (i < n)%nat -> nth i (map Jaw data) NaN = NaN) ->
  forall i, (i < n)%nat -> nth i (map Jaw (ffill_frame data)) NaN = NaN.
Proof.
  intros Hlead i Hi. unfold ffill_frame. cbv zeta.
  rewrite !(ffill_column_other Jaw) by reflexivity.
  apply (ffill_column_lead Jaw with_Jaw _ n); [reflexivity| |assumption].
  intros j Hj. rewrite (ffill_column_other Jaw) by reflexivity.
  now apply Hlead.
Qed.

Lemma indicators_jaw (high low volume : list num) (data : DataFrame)
      (n : nat) :
  (forall i, (i < n)%nat -> nth i (map Jaw data) NaN = NaN) ->
  forall i, (i < n)%nat ->
    nth i (map Jaw (calculate_indicators high low volume data)) NaN = NaN.
Proof.
  intros Hlead. unfold calculate_indicators. cbv zeta.
  apply ffill_frame_jaw. intros i Hi.
  rewrite !(assign_column_other Jaw) by reflexivity.
  now apply Hlead.
Qed.

Lemma ffill_frame_index (data : DataFrame) :
  map index (ffill_frame data) = map index data.
Proof.
  unfold ffill_frame, ffill_column. cbv zeta.
  now rewrite !assign_column_index by reflexivity.
Qed.

(** X16: The first eight rows never carry a signal.  After the three feature
    stages the frame has the rows and index labels it started with, and on
    each of its first eight rows [Jaw] is [nan] (the shift by 8 is not
    filled by the forward fill) and [Signal] is 0, whatever the library
    routines return. *)
Theorem first_rows_never_signal (high low volume : list num)
        (data : DataFrame) :
  map index (features high low volume data) = map index data
  /\ forall i b',
      (i < 8)%nat ->
      nth_error (features high low volume data) i = Some b' ->
      Jaw b' = NaN /\ Signal b' = 0%Z.
Proof.
  unfold features. rewrite generate_signals_map. split.
  - rewrite map_map. cbn [index set_Signal].
    change (map (fun x => index x) ?l) with (map index l).
    unfold calculate_indicators, calculate_alligator. cbv zeta.
    rewrite ffill_frame_index.
    now rewrite !assign_column_index by reflexivity.
  - intros i b' Hi Hb'.
    rewrite nth_error_map in Hb'.
    destruct (nth_error _ i) as [b|] eqn:Hb; [|discriminate].
    cbn in Hb'. inversion Hb'; subst b'. clear Hb'.
    assert (Hj : Jaw b = NaN).
    { rewrite <- (indicators_jaw high low volume _ 8
                    (alligator_jaw data) i Hi).
      symmetry. apply nth_error_nth. now rewrite nth_error_map, Hb. }
    cbn [Jaw Signal set_Signal]. split; [assumption|].
    apply signal_of_nan. cbn. auto.
Qed.

Lemma ffill_column_no_gap (get : Bar -> num) (set : num -> Bar -> Bar)
      (data : DataFrame) :
  (forall v b, get (set v b) = v) ->
  no_gap (map get (ffill_column get set data)).
Proof.
  intro H. unfold ffill_column.
  rewrite (assign_column_exact get set data H)
    by (unfold ffill; now rewrite ffill_from_length, length_map).
  intros i j Hij Hj. unfold ffill in *. apply ffill_from_tail; [assumption|].
  now rewrite ffill_from_length in Hj.
Qed.

Lemma ffill_frame_no_gap (data : DataFrame) (get : Bar -> num) :
  In get value_columns -> no_gap (map get (ffill_frame data)).
Proof.
  unfold value_columns, ffill_frame. cbv zeta. intro Hin.
  repeat (destruct Hin as [<-|Hin];
          [rewrite ?ffill_column_other by reflexivity;
           apply ffill_column_no_gap; reflexivity|]).
  contradiction.
Qed.

(** X15: After [calculate_indicators] no value column has a gap: in each of
    them the [nan] rows form a leading block, so once a row holds a value
    all later rows do, whatever the library routines return. *)
Theorem indicators_have_no_gaps (high low volume : list num)
        (data : DataFrame) (get : Bar -> num) :
  In get value_columns ->
  no_gap (map get (calculate_indicators high low volume data)).
Proof.
  intro Hin. unfold calculate_indicators. cbv zeta.
  now apply ffill_frame_no_gap.
Qed.

(** X14: The three lines lag: provided the moving average returns one value per
    row, the jaw at row [i + 8] is the 13-span average of the closes at row
    [i], the teeth at row [i + 5] the 8-span average at row [i], and the
    lips at row [i + 3] the 5-span average at row [i]; the closes and the
    index labels are left as they were. *)
Theorem alligator_lines_lag (data : DataFrame) :
  (forall span s, List.length (ewm_mean span s) = List.length s) ->
  let out := calculate_alligator data in
  map Close out = map Close data
  /\ map index out = map index data
  /\ (forall i, (i + 8 < List.length data)%nat ->
                nth (i + 8) (map Jaw out) NaN
                = nth i (ewm_mean 13 (map Close data)) NaN)
  /\ (forall i, (i + 5 < List.length data)%nat ->
                nth (i + 5) (map Teeth out) NaN
                = nth i (ewm_mean 8 (map Close data)) NaN)
  /\ (forall i, (i + 3 < List.length data)%nat ->
                nth (i + 3) (map Lips out) NaN
                = nth i (ewm_mean 5 (map Close data)) NaN).
Proof.
  intros Hlen out. unfold out, calculate_alligator. cbv zeta.
  assert (Hshift : forall n span i,
             (i + n < List.length data)%nat ->
             nth (i + n) (shift n (ewm_mean span (map Close data))) NaN
             = nth i (ewm_mean span (map Close data)) NaN).
  { intros n span i Hi.
    assert (Hl : (i + n
                  < List.length (ewm_mean span (map Close data)))%nat)
      by (now rewrite Hlen, length_map).
    destruct (shift_spec n (ewm_mean span (map Close data)))
      as (Hsl & _ & Hs).
    specialize (Hs i Hl).
    rewrite (nth_error_nth' (ewm_mean span (map Close data)) NaN) in Hs
      by lia.
    now apply nth_error_nth. }
  split; [now rewrite !(assign_column_other Close) by reflexivity|].
  split; [now rewrite !assign_column_index by reflexivity|].
  split; [|split]; intros i Hi.
  - rewrite !(assign_column_other Jaw) by reflexivity.
    rewrite (assign_column_same Jaw with_Jaw) by reflexivity.
    replace (i + 8 <? List.length data)%nat with true
      by (symmetry; now apply Nat.ltb_lt).
    now apply Hshift.
  - rewrite !(assign_column_other Teeth) by reflexivity.
    rewrite (assign_column_same Teeth with_Teeth) by reflexivity.
    rewrite !assign_column_length, !(assign_column_other Close)
      by reflexivity.
    replace (i + 5 <? List.length data)%nat with true
      by (symmetry; now apply Nat.ltb_lt).
    now apply Hshift.
  - rewrite (assign_column_same Lips with_Lips) by reflexivity.
    rewrite !assign_column_length, !(assign_column_other Close)
      by reflexivity.
    replace (i + 3 <? List.length data)%nat with true
      by (symmetry; now apply Nat.ltb_lt).
    now apply Hshift.
Qed.

End Pipeline.

(* ================================================================== *)
(** * Further properties of the download check and the driver *)
(* ================================================================== *)

Section DownloadFacts.

Lemma empty_false (data : Frame) :
  empty data = false -> rows data <> [] /\ columns data <> [].
Proof.
  unfold empty. destruct (rows data), (columns data); try discriminate.
  intros _. split; discriminate.
Qed.

Lemma download_data_some (fetched : option Frame) (symbol : string)
      (w : World) (out : Frame) :
  fst (download_data fetched symbol w) = Some out ->
  exists data,
    fetched = Some data /\ empty data = false
    /\ issubset required_columns (map fst (columns data)) = true
    /\ out = {| columns := map (fun c => (c, [])) required_columns;
                rows := rows data |}.
Proof.
  unfold download_data, log_record. cbv zeta.
  destruct fetched as [data|];
    [destruct (empty data) eqn:Ee;
     [|destruct (issubset required_columns (map fst (columns data))) eqn:Es]
    |]; cbn [fst snd negb]; try discriminate.
  intro H. inversion H. eauto.
Qed.

(** X17: [download_data] hands back a frame exactly when the download did not
    raise, has rows and columns, and includes the five required columns:
    the result is then those five columns over the same rows, and two INFO
    records are logged.  In every other case it returns [None] after
    logging one ERROR record, its last.  It never writes to the ledger. *)
Theorem download_data_spec (fetched : option Frame) (symbol : string)
        (w : World) :
  let r := download_data fetched symbol w in
  db (snd r) = db w
  /\ match fst r with
     | Some out =>
         exists data,
           fetched = Some data /\ empty data = false
           /\ issubset required_columns (map fst (columns data)) = true
           /\ out = {| columns := map (fun c => (c, [])) required_columns;
                       rows := rows data |}
           /\ log (snd r)
              = log w ++ [mkLog INFO (Downloading symbol);
                          mkLog INFO (Downloaded (List.length (rows data)))]
     | None =>
         (fetched = None
          \/ exists data,
              fetched = Some data
              /\ (empty data = true
                  \/ issubset required_columns (map fst (columns data))
                     = false))
         /\ exists pre told,
             log (snd r) = log w ++ pre ++ [mkLog ERROR told]
             /\ forallb (fun x => match level x with INFO => true
                                                 | _ => false end) pre
                = true
     end.
Proof.
  unfold download_data, log_record. cbv zeta.
  destruct fetched as [data|];
    [destruct (empty data) eqn:Ee;
     [|destruct (issubset required_columns (map fst (columns data))) eqn:Es]
    |]; cbn [fst snd db log negb].
  - split; [reflexivity|]. split; [eauto 6|].
    eexists [_], _. rewrite <- app_assoc. split; reflexivity.
  - split; [reflexivity|]. exists data.
    rewrite <- app_assoc. repeat split; auto.
  - split; [reflexivity|]. split; [eauto 6|].
    eexists [_; _], _. rewrite <- !app_assoc. split; reflexivity.
  - split; [reflexivity|]. split; [now left|].
    eexists [_], _. rewrite <- app_assoc. split; reflexivity.
Qed.

(** X18: A frame that [download_data] has returned passes the check again and
    comes back unchanged. *)
Theorem download_data_revalidates (fetched : option Frame)
        (symbol symbol' : string) (w w' : World) (out : Frame) :
  fst (download_data fetched symbol w) = Some out ->
  fst (download_data (Some out) symbol' w') = Some out.
Proof.
  intro H.
  destruct (download_data_some fetched symbol w out H)
    as (data & _ & He & _ & ->).
  destruct (empty_false data He) as [Hr _].
  unfold download_data. cbv zeta.
  assert (Ee : empty {| columns := map (fun c => (c, [])) required_columns;
                        rows := rows data |} = false).
  { unfold empty. cbn [rows columns].
    destruct (rows data); [contradiction|reflexivity]. }
  rewrite Ee. cbn [columns rows]. rewrite map_map. cbn [fst]. rewrite map_id.
  reflexivity.
Qed.

Lemma download_data_shape (fetched : option Frame) (symbol : string) :
  exists r l,
    forallb (fun x => negb (is_final_record x)) l = true
    /\ forall w,
        download_data fetched symbol w
        = (r, {| db := db w; log := log w ++ l |}).
Proof.
  unfold download_data, log_record. cbv zeta.
  destruct fetched as [data|];
    [destruct (empty data);
     [|destruct (issubset required_columns (map fst (columns data)))]
    |]; cbn [fst snd db log negb].
  all: eexists _, _; split; cycle 1.
  all: try (intro w; rewrite <- ?app_assoc; reflexivity).
  all: reflexivity.
Qed.

End DownloadFacts.

Section DriverFacts.

Variable fetch : string -> option Frame.
Variable indicators : Frame -> DataFrame.

Local Abbreviation main_body := (main_body fetch indicators).
Local Abbreviation main_loop := (main_loop fetch indicators).
Local Abbreviation main := (main fetch indicators).

Lemma filter_not_final (l : list LogRecord) :
  forallb (fun x => negb (is_final_record x)) l = true ->
  filter is_final_record l = [].
Proof.
  induction l as [|r l IH]; cbn; [reflexivity|].
  intros [Hr Hl]%andb_true_iff. apply negb_true_iff in Hr.
  rewrite Hr. now apply IH.
Qed.

(** What one pass of the driver's loop does, whatever the world before. *)
Lemma main_body_shape (symbol : string) :
  exists r d l,
    filter is_final_record l
    = [match r with
       | Some (trades, pf) =>
           mkLog INFO (FinalResults symbol (List.length trades) pf
                                    main_initial_capital)
       | None => mkLog ERROR (NoDataAvailable symbol)
       end]
    /\ (match r with
        | Some res =>
            exists data,
              fst (download_data (fetch symbol) symbol empty_world)
              = Some data
              /\ backtest_strategy symbol main_initial_capital
                                   default_risk_per_trade
                                   (generate_signals (indicators data))
                 = Ok res
        | None =>
            fst (download_data (fetch symbol) symbol empty_world) = None
            /\ d = []
        end)
    /\ forall w,
        main_body symbol w
        = Ok ({| db := db w ++ d; log := log w ++ l |}, r).
Proof.
  destruct (download_data_shape (fetch symbol) symbol)
    as (r0 & l0 & Hl0 & Hd).
  unfold main_body.
  destruct r0 as [data|].
  - destruct (backtest_run_inv symbol main_initial_capital
                default_risk_per_trade (generate_signals (indicators data)))
      as (s0 & st & _ & _ & _ & Hrun & _).
    exists (Some (trades st, portfolio st)), (db (world st)),
      (l0 ++ log (world st)
          ++ [mkLog INFO (FinalResults symbol (List.length (trades st))
                                       (portfolio st)
                                       main_initial_capital)]).
    split; [|split].
    + rewrite !filter_app, (filter_not_final l0 Hl0).
      rewrite (filter_not_final _ (run_log_not_final _ _ _ _ _ Hrun)).
      reflexivity.
    + exists data. rewrite Hd. split; [reflexivity|].
      unfold backtest_strategy. now rewrite Hrun.
    + intro w. rewrite Hd, Hrun. cbn. unfold log_record, extend. cbn.
      now rewrite <- !app_assoc.
  - exists None, [], (l0 ++ [mkLog ERROR (NoDataAvailable symbol)]).
    split; [|split].
    + rewrite filter_app, (filter_not_final l0 Hl0). reflexivity.
    + rewrite Hd. split; reflexivity.
    + intro w. rewrite Hd. unfold log_record. cbn.
      now rewrite app_nil_r, <- app_assoc.
Qed.

(** X19: Symbols do not share capital or state: what one pass of the driver's
    loop returns for a symbol, and the rows and records it appends, do not
    depend on the ledger and log left by the symbols before it; when a
    back-test is run it is [backtest_strategy] started from the capital
    10000 with the default risk on that symbol's signals; and the pass only
    appends to the ledger and the log. *)
Theorem symbols_are_independent (symbol : string) (w w' : World)
        (r : option (list Trade.t * num)) :
  main_body symbol w = Ok (w', r) ->
  (exists d l,
      db w' = db w ++ d /\ log w' = log w ++ l
      /\ forall w2,
          main_body symbol w2
          = Ok ({| db := db w2 ++ d; log := log w2 ++ l |}, r))
  /\ match r with
     | Some res =>
         exists data,
           fst (download_data (fetch symbol) symbol empty_world) = Some data
           /\ backtest_strategy symbol main_initial_capital
                                default_risk_per_trade
                                (generate_signals (indicators data))
              = Ok res
     | None => db w' = db w
     end.
Proof.
  intro H.
  destruct (main_body_shape symbol) as (r0 & d & l & _ & Hr & Hall).
  rewrite Hall in H. inversion H; subst. cbn [db log]. split.
  - exists d, l. repeat split. exact Hall.
  - destruct r as [res|]; [exact Hr|].
    destruct Hr as [_ ->]. now rewrite app_nil_r.
Qed.

Lemma main_loop_runs (l : list string) :
  forall w,
    exists w',
      main_loop l w = Ok w'
      /\ List.length (filter is_final_record (log w'))
         = (List.length (filter is_final_record (log w)) + List.length l)%nat
      /\ exists d, db w' = db w ++ d.
Proof.
  induction l as [|symbol rest IH]; intro w; cbn.
  - exists w. split; [reflexivity|]. split; [lia|].
    exists []. now rewrite app_nil_r.
  - destruct (main_body_shape symbol) as (r0 & d & l0 & Hf & _ & Hall).
    rewrite Hall. cbn [bind fst].
    destruct (IH {| db := db w ++ d; log := log w ++ l0 |})
      as (w' & Hrun & Hcount & d' & Hdb).
    exists w'. split; [exact Hrun|]. cbn [db log] in *. split.
    + rewrite Hcount, filter_app, length_app, Hf. cbn. lia.
    + exists (d ++ d'). now rewrite Hdb, app_assoc.
Qed.

(** X20: [main] runs to the end whenever the downloads and the indicator
    library return: no exception of the program's own leaves it, and its
    log holds exactly one closing record, the final results or the no-data
    error, for each of the six symbols. *)
Theorem main_runs_to_completion :
  exists w,
    main = Ok w
    /\ List.length (filter is_final_record (log w)) = List.length symbols.
Proof.
  unfold main.
  destruct (main_loop_runs symbols
              (log_record INFO DatabaseInitialized empty_world))
    as (w & Hrun & Hcount & _).
  exists w. split; [exact Hrun|]. rewrite Hcount. reflexivity.
Qed.

End DriverFacts.

(* ================================================================== *)
(** * Scenarios *)
(* ================================================================== *)

(** C3: scenario A.  With [initial_capital = 10000] and
    [risk_per_trade = 0.03], bar 0 (close 100, ATR 2, signal 1) opens a long
    position of size [10000 x 0.03 x 1.0 / 3.5] at 100 with the trailing
    stop at 98; bar 1 (close 108, ATR 2) moves the stop to 105 and closes
    the trade by the take-profit test [108 >= 100 + 7]; the function returns
    that one trade, Closed, with profit [(108 - 100) x size], about 685.71,
    and a portfolio of about 10685.71. *)
Theorem scenario_A_run :
  let ic := Fin 10000 in
  let r := Fin 0.03 in
  let bar0 := bar_of 0 100 2 1 in
  let bar1 := bar_of 1 108 2 0 in
  let size := Fin (10000 * 0.03 * 1.0 / 3.5) in
  exists st0 st1 t p,
    step "X" ic r (initial_state ic) bar0 = Ok st0
    /\ position_size_factor bar0 =~ Fin 1.0
    /\ stop_loss bar0 =~ Fin 3.5
    /\ position st0 =~ size
    /\ entry_price st0 = Fin 100
    /\ trailing_stop st0 =~ Fin 98
    /\ trades st0 = [Trade.mk 0 "X" Long (Fin 100) None None Open]
    /\ step "X" ic r st0 bar1 = Ok st1
    /\ trailing_stop st1 =~ Fin 105
    /\ take_profit bar1 =~ Fin 7
    /\ (Close bar1 >=? entry_price st0 + take_profit bar1) = true
    /\ (Close bar1 <=? trailing_stop st1) = false
    /\ position st1 = zero
    /\ backtest_strategy "X" ic r scenario_A = Ok ([t], portfolio st1)
    /\ t = Trade.mk 0 "X" Long (Fin 100) (Some (Fin 108)) (Some p) Closed
    /\ p =~ (Fin 108 - Fin 100) * size
    /\ (Fin 685.71 <=? p) = true /\ (p <=? Fin 685.72) = true
    /\ portfolio st1 =~ Fin 10000 + p
    /\ (Fin 10685.71 <=? portfolio st1) = true
    /\ (portfolio st1 <=? Fin 10685.72) = true.
Proof.
  cbv zeta. eexists _, _, _, _.
  split; [vm_compute; reflexivity|].
  repeat (split; [vm_compute; reflexivity|]).
  vm_compute; reflexivity.
Qed.

(** The exit test follows the ATR of the bar being processed: entered
    with ATR 2 (target 107), the position is closed at 105 on a bar whose
    ATR is 1 (target 104), the trailing stop being at 103.5. *)
Example exit_uses_current_atr :
  exists st',
    step "X" (Fin 10000) (Fin 0.03) after_entry_A calm_bar = Ok st'
    /\ take_profit (bar_of 0 100 2 1) =~ Fin 7
    /\ take_profit calm_bar =~ Fin 4
    /\ (Close calm_bar >=? entry_price after_entry_A + Fin 7) = false
    /\ (Close calm_bar <=? trailing_stop st') = false
    /\ position st' = zero
    /\ forallb is_closed (trades st') = true.
Proof.
  eexists. split; [vm_compute; reflexivity|].
  repeat (split; [vm_compute; reflexivity|]).
  reflexivity.
Qed.

Lemma risk_levels_per_bar_witness :
  (position after_entry_A >? zero) = true
  /\ trades after_entry_A <> []
  /\ exists st',
      step "X" (Fin 10000) (Fin 0.03) after_entry_A calm_bar = Ok st'
      /\ (Close calm_bar >=? entry_price after_entry_A + take_profit calm_bar)
         = true
      /\ (position st' ==? zero) = true.
Proof.
  split; [reflexivity|]. split; [discriminate|].
  destruct (risk_levels_per_bar "X" (Fin 10000) (Fin 0.03) calm_bar)
    as (_ & _ & _ & _ & _ & Hlong & _).
  destruct (Hlong after_entry_A eq_refl) as (Hex & Htest).
  destruct Hex as [st' Hstep]; [discriminate|].
  exists st'. split; [exact Hstep|].
  assert (Htp : (Close calm_bar
                 >=? entry_price after_entry_A + take_profit calm_bar)
                = true) by (vm_compute; reflexivity).
  split; [exact Htp|].
  destruct (Htest st' Hstep) as (_ & E & _).
  rewrite E, Htp. reflexivity.
Defined.

(** Scenario D: the position opened on the second-to-last bar is closed by
    the forced closure at the last close, 101, with two warnings logged. *)
Example scenario_D_run :
  exists st p,
    backtest_run "X" (Fin 10000) (Fin 0.03) scenario_D = Ok st
    /\ trades st
       = [Trade.mk 1 "X" Long (Fin 100) (Some (Fin 101)) (Some p) Closed]
    /\ p =~ Fin (600 # 7)
    /\ portfolio st =~ Fin 10000 + p
    /\ map level (log (world st)) = [INFO; WARNING; WARNING; INFO].
Proof.
  eexists _, _. split; [vm_compute; reflexivity|].
  repeat (split; [vm_compute; reflexivity|]).
  reflexivity.
Qed.

(** With [risk_per_trade = 0] the entry of a one-bar frame gets the size 0:
    the trade is appended, [position] stays 0, the forced closure does not
    fire and the trade is returned Open. *)
Lemma zero_risk_leaves_trade_open :
  backtest_strategy "X" (Fin 10000) (Fin 0) [bar_of 0 100 2 1]
  = Ok ([Trade.mk 0 "X" Long (Fin 100) None None Open], Fin 10000)
  /\ ~ (forall trades pf,
           backtest_strategy "X" (Fin 10000) (Fin 0) [bar_of 0 100 2 1]
           = Ok (trades, pf) ->
           forallb is_closed trades = true).
Proof.
  split; [vm_compute; reflexivity|].
  intro H. specialize (H _ _ eq_refl). vm_compute in H. discriminate.
Qed.

Lemma sized_run_ends_closed_witness :
  sized_entries (Fin 10000) (Fin 0.03) scenario_D = true
  /\ exists st,
      backtest_run "X" (Fin 10000) (Fin 0.03) scenario_D = Ok st
      /\ forallb is_closed (trades st) = true.
Proof.
  split; [vm_compute; reflexivity|].
  destruct (sized_run_ends_closed "X" (Fin 10000) (Fin 0.03) scenario_D)
    as (s0 & st & _ & Hrun & _ & Hclosed & _).
  - vm_compute; reflexivity.
  - exists st. split; assumption.
Defined.

Lemma generate_signals_spec_witness :
  nth_error [long_row] 0 = Some long_row
  /\ exists b',
      nth_error (generate_signals [long_row]) 0 = Some b'
      /\ Signal b' = 1%Z.
Proof.
  split; [reflexivity|].
  destruct (generate_signals_spec [long_row] 0 long_row eq_refl)
    as (b' & Hn & _ & Hl & _).
  exists b'. split; [assumption|].
  apply Hl. vm_compute. repeat split.
Defined.

(** After the profitable trade of scenario A the portfolio is above
    10000, and the next entry is still sized from 10000. *)
Lemma reentry_sized_from_initial_capital :
  let bar2 := bar_of 2 100 2 1 in
  exists st2 st3,
    loop "X" (Fin 10000) (Fin 0.03) (initial_state (Fin 10000)) scenario_A
    = Ok st2
    /\ (position st2 ==? zero) = true
    /\ portfolio st2 =~ Fin (74800 # 7)
    /\ step "X" (Fin 10000) (Fin 0.03) st2 bar2 = Ok st3
    /\ position st3 =~ Fin (10000 * 0.03 * 1.0 / 3.5)
    /\ ~ position st3
         =~ (portfolio st2 * Fin 0.03 * position_size_factor bar2)
            / stop_loss bar2.
Proof.
  cbv zeta. eexists _, _.
  split; [vm_compute; reflexivity|].
  repeat (split; [vm_compute; reflexivity|]).
  vm_compute. discriminate.
Qed.

Lemma entry_sizing_witness :
  (position (initial_state (Fin 10000)) ==? zero) = true
  /\ exists st',
      step "X" (Fin 10000) (Fin 0.03) (initial_state (Fin 10000))
           (bar_of 0 100 2 1) = Ok st'
      /\ entry_price st' = Fin 100.
Proof.
  split; [reflexivity|].
  destruct (entry_sizing "X" (Fin 10000) (Fin 0.03)
              (initial_state (Fin 10000)) (bar_of 0 100 2 1))
    as (_ & _ & st' & Hstep & Hentry & _).
  - reflexivity.
  - left. reflexivity.
  - exists st'. split; assumption.
Defined.

Lemma trailing_stop_monotone_witness :
  loop "X" (Fin 10000) (Fin 0.03) after_entry_A [bar_of 1 104 2 0]
  = Ok after_hold_A
  /\ raised (trailing_stop after_entry_A) (trailing_stop after_hold_A)
  /\ loop "X" (Fin 10000) (Fin 0.03) after_short_entry [bar_of 1 96 2 0]
     = Ok after_short_hold
  /\ lowered (trailing_stop after_short_entry)
             (trailing_stop after_short_hold).
Proof.
  split; [vm_compute; reflexivity|]. split; [|split].
  - apply (trailing_stop_monotone "X" (Fin 10000) (Fin 0.03) after_entry_A
                                  [bar_of 1 104 2 0] after_hold_A).
    + vm_compute; reflexivity.
    + vm_compute. split; [reflexivity|exact I].
  - vm_compute; reflexivity.
  - apply (trailing_stop_monotone "X" (Fin 10000) (Fin 0.03)
                                  after_short_entry [bar_of 1 96 2 0]
                                  after_short_hold).
    + vm_compute; reflexivity.
    + vm_compute. split; [reflexivity|exact I].
Defined.

(** An entry signal on a bar with ATR 0: the position becomes [inf], the
    Open trade is appended and written to the ledger, and the log holds no
    warning. *)
Lemma zero_atr_entry_opens_trade :
  (ATR zero_atr_bar <=? zero) = true
  /\ exists st',
      step "X" (Fin 10000) (Fin 0.03) (initial_state (Fin 10000)) zero_atr_bar
      = Ok st'
      /\ position st' = PInf
      /\ trades st' = [Trade.mk 0 "X" Long (Fin 100) None None Open]
      /\ db (world st') = [Row.mk 0 "X" Long (Fin 100) None None Open]
      /\ no_warning (log (world st')) = true.
Proof.
  split; [reflexivity|]. eexists.
  split; [vm_compute; reflexivity|].
  repeat split.
Qed.

Lemma entry_is_unguarded_witness :
  (ATR zero_atr_bar <=? zero) = true
  /\ exists st',
      step "X" (Fin 10000) (Fin 0.03) (initial_state (Fin 10000)) zero_atr_bar
      = Ok st'
      /\ (position st' = PInf \/ position st' = NInf).
Proof.
  split; [reflexivity|].
  destruct (entry_is_unguarded "X" (Fin 10000) (Fin 0.03)
              (initial_state (Fin 10000)) zero_atr_bar)
    as (st' & d & Hstep & _ & _ & _ & _ & _ & Hinf & _).
  - reflexivity.
  - reflexivity.
  - left. reflexivity.
  - exists st'. split; [assumption|].
    apply (Hinf 0%Q (10000 * 0.03)%Q).
    + reflexivity.
    + reflexivity.
    + reflexivity.
    + discriminate.
Defined.



(** An entry on the last bar is not always returned flat: with an ATR of 0
    the size is [inf] and the forced closure records [0 x inf], a [nan],
    as profit and as portfolio; with no capital the size is 0 and the trade
    is returned Open. *)
Lemma last_bar_entry_not_flat :
  backtest_strategy "X" (Fin 10000) (Fin 0.03) [zero_atr_bar]
  = Ok ([Trade.mk 0 "X" Long (Fin 100) (Some (Fin 100)) (Some NaN) Closed],
        NaN)
  /\ backtest_strategy "X" (Fin 0) (Fin 0.03) [bar_of 0 100 2 1]
     = Ok ([Trade.mk 0 "X" Long (Fin 100) None None Open], Fin 0).
Proof. split; vm_compute; reflexivity. Qed.

Lemma last_bar_entry_witness :
  loop "X" (Fin 10000) (Fin 0.03) (initial_state (Fin 10000)) []
  = Ok (initial_state (Fin 10000))
  /\ long_size (Fin 10000) (Fin 0.03) (bar_of 0 100 2 1)
     = Fin (600000000 # 7000000)
  /\ exists p,
      backtest_strategy "X" (Fin 10000) (Fin 0.03) ([] ++ [bar_of 0 100 2 1])
      = Ok ([Trade.mk 0 "X" Long (Fin 100) (Some (Fin 100)) (Some p) Closed],
            Fin 10000 + p)
      /\ p =~ zero.
Proof.
  split; [reflexivity|]. split; [vm_compute; reflexivity|].
  destruct (last_bar_entry "X" (Fin 10000) (Fin 0.03) [] (bar_of 0 100 2 1)
              (initial_state (Fin 10000)) 100 (600000000 # 7000000))
    as (d & p & Hd & Hrun & Hp & _).
  - reflexivity.
  - reflexivity.
  - reflexivity.
  - left. split; [reflexivity|vm_compute; reflexivity].
  - discriminate.
  - exists p. subst d. split; [exact Hrun|exact Hp].
Defined.

(* ================================================================== *)
(** * The further properties on the concrete frames *)
(* ================================================================== *)

Lemma no_signal_no_trade_witness :
  existsb signal_bar quiet_frame = false
  /\ backtest_strategy "X" (Fin 10000) (Fin 0.03) quiet_frame
     = Ok ([], Fin 10000).
Proof.
  split; [reflexivity|].
  apply (no_signal_no_trade "X" (Fin 10000) (Fin 0.03) quiet_frame).
  reflexivity.
Defined.


Lemma ledger_mirrors_trades_witness :
  backtest_run "X" (Fin 10000) (Fin 0.03) scenario_D = Ok final_D
  /\ List.length (db (world final_D)) = 2%nat
  /\ filter row_open (db (world final_D)) = map open_row (trades final_D).
Proof.
  split; [vm_compute; reflexivity|]. split; [reflexivity|].
  apply (ledger_mirrors_trades "X" (Fin 10000) (Fin 0.03) scenario_D final_D).
  vm_compute; reflexivity.
Defined.

Lemma log_of_a_run_witness :
  loop "X" (Fin 10000) (Fin 0.03) (initial_state (Fin 10000)) scenario_D
  = Ok loop_D
  /\ backtest_run "X" (Fin 10000) (Fin 0.03) scenario_D = Ok final_D
  /\ map level (log (world final_D))
     = repeat INFO (List.length (db (world loop_D)))
       ++ (if position loop_D !=? zero then [WARNING; WARNING; INFO] else []).
Proof.
  split; [vm_compute; reflexivity|]. split; [vm_compute; reflexivity|].
  apply (log_of_a_run "X" (Fin 10000) (Fin 0.03) scenario_D loop_D final_D);
    vm_compute; reflexivity.
Defined.

Lemma trades_come_from_signals_witness :
  backtest_strategy "X" (Fin 10000) (Fin 0.03) scenario_D
  = Ok (trades final_D, portfolio final_D)
  /\ Forall (from_signal_bar "X" scenario_D) (trades final_D).
Proof.
  split; [vm_compute; reflexivity|].
  apply (trades_come_from_signals "X" (Fin 10000) (Fin 0.03) scenario_D
           (trades final_D) (portfolio final_D)).
  vm_compute; reflexivity.
Defined.

Lemma one_open_trade_at_most_witness :
  sized_entries (Fin 10000) (Fin 0.03) (scenario_D ++ []) = true
  /\ loop "X" (Fin 10000) (Fin 0.03) (initial_state (Fin 10000)) scenario_D
     = Ok loop_D
  /\ if position loop_D ==? zero
     then forallb is_closed (trades loop_D) = true
     else exists l t,
         trades loop_D = l ++ [t]
         /\ forallb is_closed l = true
         /\ Trade.status t = Open.
Proof.
  split; [vm_compute; reflexivity|]. split; [vm_compute; reflexivity|].
  apply (one_open_trade_at_most "X" (Fin 10000) (Fin 0.03) scenario_D []
                                loop_D); vm_compute; reflexivity.
Defined.

Lemma closed_trades_are_final_witness :
  loop "X" (Fin 10000) (Fin 0.03) (initial_state (Fin 10000)) scenario_A
  = Ok loop_A
  /\ backtest_run "X" (Fin 10000) (Fin 0.03)
                  (scenario_A ++ [bar_of 2 100 2 1])
     = Ok final_A_reentry
  /\ history_kept (trades loop_A) (trades final_A_reentry).
Proof.
  split; [vm_compute; reflexivity|]. split; [vm_compute; reflexivity|].
  apply (closed_trades_are_final "X" (Fin 10000) (Fin 0.03) scenario_A
           [bar_of 2 100 2 1] loop_A final_A_reentry);
    vm_compute; reflexivity.
Defined.

Lemma nan_row_has_no_signal_witness :
  nth_error [warmup_row] 0 = Some warmup_row
  /\ In NaN (compared_columns warmup_row)
  /\ exists b',
      nth_error (generate_signals [warmup_row]) 0 = Some b'
      /\ Signal b' = 0%Z.
Proof.
  split; [reflexivity|]. split; [cbn; auto|].
  apply (nan_row_has_no_signal [warmup_row] 0 warmup_row eq_refl).
  cbn. auto.
Defined.

Lemma download_data_revalidates_witness :
  fst (download_data (Some full_frame) "AAPL" empty_world)
  = Some checked_frame
  /\ fst (download_data (Some checked_frame) "MSTR" empty_world)
     = Some checked_frame.
Proof.
  split; [reflexivity|].
  apply (download_data_revalidates (Some full_frame) "AAPL" "MSTR"
                                   empty_world empty_world checked_frame).
  reflexivity.
Defined.

Lemma symbols_are_independent_witness :
  main_body demo_fetch demo_indicators "AAPL" empty_world
  = Ok (demo_world, demo_result)
  /\ exists d l,
      db demo_world = db empty_world ++ d
      /\ log demo_world = log empty_world ++ l
      /\ forall w2,
          main_body demo_fetch demo_indicators "AAPL" w2
          = Ok ({| db := db w2 ++ d; log := log w2 ++ l |}, demo_result).
Proof.
  split; [vm_compute; reflexivity|].
  apply (symbols_are_independent demo_fetch demo_indicators "AAPL"
           empty_world demo_world demo_result).
  vm_compute; reflexivity.
Defined.

Lemma indicators_have_no_gaps_witness :
  In ATR value_columns
  /\ no_gap
       (map ATR
            (calculate_indicators
               (fun s => s) (fun _ _ _ _ => []) (fun _ _ => [])
               (fun _ _ _ _ _ => ([], [])) (fun _ _ c _ => shift 3 c)
               (fun _ _ => []) (fun _ _ _ _ => ([], [], []))
               [] [] [] rising_closes)).
Proof.
  assert (H : In ATR value_columns) by (cbn; tauto).
  split; [exact H|].
  apply (indicators_have_no_gaps
           (fun s => s) (fun _ _ _ _ => []) (fun _ _ => [])
           (fun _ _ _ _ _ => ([], [])) (fun _ _ c _ => shift 3 c)
           (fun _ _ => []) (fun _ _ _ _ => ([], [], []))
           [] [] [] rising_closes ATR H).
Defined.

Lemma alligator_lines_lag_witness :
  (forall span s, List.length (same_series span s) = List.length s)
  /\ nth (1 + 8) (map Jaw (calculate_alligator same_series rising_closes)) NaN
     = nth 1 (same_series 13 (map Close rising_closes)) NaN.
Proof.
  assert (H : forall span s,
             List.length (same_series span s) = List.length s)
    by reflexivity.
  split; [exact H|].
  destruct (alligator_lines_lag same_series rising_closes H)
    as (_ & _ & Hjaw & _).
  apply (Hjaw 1%nat). cbn. lia.
Defined.

Lemma positive_inputs_size_entries_witness :
  Fin 10000 * Fin 0.03 = Fin (10000 * 0.03)
  /\ (0 < 10000 * 0.03)%Q
  /\ ATR (bar_of 0 100 2 1) = Fin 2
  /\ (0 < 2)%Q
  /\ (long_size (Fin 10000) (Fin 0.03) (bar_of 0 100 2 1) >? zero) = true.
Proof.
  split; [reflexivity|]. split; [reflexivity|].
  split; [reflexivity|]. split; [reflexivity|].
  apply (positive_inputs_size_entries (Fin 10000) (Fin 0.03)
           (bar_of 0 100 2 1) (10000 * 0.03)%Q 2%Q); reflexivity.
Defined.

Lemma runs_compose_when_flat_witness :
  loop "X" (Fin 10000) (Fin 0.03) (initial_state (Fin 10000)) scenario_A
  = Ok loop_A
  /\ (position loop_A ==? zero) = true
  /\ backtest_strategy "X" (Fin 10000) (Fin 0.03) scenario_D
     = Ok (trades final_D, portfolio final_D)
  /\ backtest_strategy "X" (Fin 10000) (Fin 0.03) (scenario_A ++ scenario_D)
     = Ok (trades loop_A ++ trades final_D,
           fold_left Num.add (closed_profits (trades final_D))
                     (portfolio loop_A)).
Proof.
  split; [vm_compute; reflexivity|]. split; [reflexivity|].
  split; [vm_compute; reflexivity|].
  apply (runs_compose_when_flat "X" (Fin 10000) (Fin 0.03) scenario_A
           scenario_D loop_A (trades final_D) (portfolio final_D));
    vm_compute; reflexivity.
Defined.
